(** * Snow-crystal growth on a hexagonal lattice (hexagonal_grid.py)

    A shallow embedding of [Hexagon] and [CrystalLattice] and the proofs of
    the properties of construction, of the termination test
    [all_ends_frozen] and of the update [diffusion].

    Numbers.  The program computes with Python numbers.  They are modelled as
    exact rationals, extended with the one special value the program can
    produce without any rounding: the NaN that [np.mean] returns on an empty
    list.  Every operation returns its result in lowest terms.  Rounding,
    overflow and infinities are outside the model.

    Dictionaries.  [self.lattice] is a Python dict: a finite map together
    with the insertion order of its keys, which is the order [keys()]
    iterates in.

    Exceptions and process exit.  A lookup of a missing key raises KeyError
    and [sys.exit()] ends the process; both are outcomes of [result]. *)

From Stdlib Require Import ZArith QArith Lqa.
From stdpp Require Import gmap list sorting.

Local Open Scope Z_scope.

(** Axial coordinates: the tuples that key the lattice. *)
Abbreviation coord := (Z * Z)%type (only parsing).

(** ** Numbers *)

Inductive num : Type :=
  | Fin (q : Q)
  | NaN.

Definition num_lift2 (f : Q → Q → Q) (x y : num) : num :=
  match x, y with
  | Fin a, Fin b => Fin (Qred (f a b))
  | _, _ => NaN
  end.

Definition nadd : num → num → num := num_lift2 Qplus.
Definition nsub : num → num → num := num_lift2 Qminus.
Definition nmul : num → num → num := num_lift2 Qmult.

(** Division; the only zero divisor the program meets is the length of an
    empty list inside [np.mean], where the dividend is the empty sum and
    numpy answers nan. *)
Definition ndiv (x y : num) : num :=
  match x, y with
  | Fin a, Fin b => if Qeq_bool b 0 then NaN else Fin (Qred (a / b))
  | _, _ => NaN
  end.

(** [x >= 1]; every comparison with NaN is false. *)
Definition ge1 (x : num) : bool :=
  match x with
  | Fin a => Qle_bool 1 a
  | NaN => false
  end.

Definition of_Z (z : Z) : num := Fin (inject_Z z).

Definition nsum (l : list num) : num := foldr nadd (of_Z 0) l.

(** [np.mean l]: the sum divided by the number of elements. *)
Definition np_mean (l : list num) : num :=
  ndiv (nsum l) (of_Z (Z.of_nat (length l))).

(** ** Outcomes of a call *)

Inductive effect : Type :=
  | PrintLine (frozen : nat) (b g : num)
  | SaveImage (b g : num).

Inductive result (A : Type) : Type :=
  | Ok (a : A)
  | KeyError
  | SystemExit (io : list effect).

Arguments Ok {A} a.
Arguments KeyError {A}.
Arguments SystemExit {A} io.

(** Sequencing: an exception or an exit skips the rest. *)
#[global] Instance result_bind : MBind result := λ A B k m,
  match m with
  | Ok a => k a
  | KeyError => KeyError
  | SystemExit io => SystemExit io
  end.

(** [for k in ks: s = body(k, s)] *)
Fixpoint for_each {K S} (ks : list K) (body : K → S → result S)
    (s : S) : result S :=
  match ks with
  | [] => Ok s
  | k :: ks' => s' ← body k s; for_each ks' body s'
  end.

(** ** Cells *)

Record Hexagon : Type := mkHexagon {
  u : num;
  v : num;
  state : num;
  mean_u : num;
  receptive : bool
}.

Definition set_u (x : num) (h : Hexagon) : Hexagon :=
  mkHexagon x (v h) (state h) (mean_u h) (receptive h).
Definition set_v (x : num) (h : Hexagon) : Hexagon :=
  mkHexagon (u h) x (state h) (mean_u h) (receptive h).
Definition set_state (x : num) (h : Hexagon) : Hexagon :=
  mkHexagon (u h) (v h) x (mean_u h) (receptive h).
Definition set_mean_u (x : num) (h : Hexagon) : Hexagon :=
  mkHexagon (u h) (v h) (state h) x (receptive h).
Definition set_receptive (b : bool) (h : Hexagon) : Hexagon :=
  mkHexagon (u h) (v h) (state h) (mean_u h) b.

(** ** Dictionaries keyed by coordinates *)

Record dict : Type := mkDict {
  items : gmap coord Hexagon;
  keys : list coord
}.

Definition dict_empty : dict := mkDict ∅ [].

Definition dict_lookup (d : dict) (c : coord) : option Hexagon := items d !! c.

(** [c in d] *)
Definition dict_in (c : coord) (d : dict) : bool :=
  bool_decide (is_Some (dict_lookup d c)).

(** [d[c] = h]: a new key goes to the end of the order. *)
Definition dict_set (c : coord) (h : Hexagon) (d : dict) : dict :=
  mkDict (<[c := h]> (items d))
         (if dict_in c d then keys d else keys d ++ [c]).

(** [d[c]] *)
Definition dict_get (d : dict) (c : coord) : result Hexagon :=
  match dict_lookup d c with
  | Some h => Ok h
  | None => KeyError
  end.

(** [len(d)] *)
Definition dict_len (d : dict) : nat := size (items d).

(** ** The lattice *)

(** [size_] is [self.size]. *)
Record CrystalLattice : Type := mkCrystalLattice {
  size_ : Z;
  lattice : dict;
  alpha : num;
  beta : num;
  gamma : num
}.

Definition with_lattice (d : dict) (L : CrystalLattice) : CrystalLattice :=
  mkCrystalLattice (size_ L) d (alpha L) (beta L) (gamma L).

(** [range(a, b)] *)
Definition range (a b : Z) : list Z := seqZ a (b - a).

(** The body of the two nested loops of [create_hexagonal_lattice]. *)
Definition create_cell (L : CrystalLattice) (q r : Z) : CrystalLattice :=
  if bool_decide (q + r > size_ L) || bool_decide (q + r < - size_ L) then L
  else if bool_decide (q ≠ 0) || bool_decide (r ≠ 0) then
    with_lattice
      (dict_set (r, q) (mkHexagon (beta L) (of_Z 0) (beta L) (of_Z 0) false)
                (lattice L)) L
  else
    with_lattice
      (dict_set (r, q) (mkHexagon (of_Z 0) (of_Z 1) (of_Z 1) (of_Z 0) false)
                (lattice L)) L.

Definition create_hexagonal_lattice (L : CrystalLattice) : CrystalLattice :=
  foldl (λ L q,
           foldl (λ L r, create_cell L q r) L
                 (range (- size_ L) (size_ L + 1)))
        L (range (- size_ L) (size_ L + 1)).

(** [CrystalLattice(lattice_size, alpha, beta, gamma)] *)
Definition CrystalLattice_init (lattice_size : Z) (a b g : num)
    : CrystalLattice :=
  create_hexagonal_lattice (mkCrystalLattice lattice_size dict_empty a b g).

(** ** Topology *)

Definition get_neighbours (L : CrystalLattice) (hexagon_coordinates : coord)
    : list coord :=
  let '(q, r) := hexagon_coordinates in
  let neighbourhood :=
    [(q, r - 1); (q + 1, r - 1); (q + 1, r);
     (q, r + 1); (q - 1, r + 1); (q - 1, r)] in
  filter (λ qr, dict_in qr (lattice L) = true) neighbourhood.

(** [self.lattice[c]] *)
Definition cell (L : CrystalLattice) (c : coord) : result Hexagon :=
  dict_get (lattice L) c.

(** [self.lattice[c].field = f(self.lattice[c])]: the cell object is looked
    up and one of its attributes is overwritten. *)
Definition setattr (c : coord) (f : Hexagon → Hexagon) (L : CrystalLattice)
    : result CrystalLattice :=
  h ← cell L c;
  Ok (with_lattice (mkDict (<[c := f h]> (items (lattice L)))
                           (keys (lattice L))) L).

(** [[f(x) for x in xs]] for an [f] that may raise. *)
Fixpoint comprehension {A B} (f : A → result B) (xs : list A)
    : result (list B) :=
  match xs with
  | [] => Ok []
  | x :: xs' => y ← f x; ys ← comprehension f xs'; Ok (y :: ys)
  end.

Definition umean_neighbours (L : CrystalLattice) (coordinates : coord)
    : result num :=
  us ← comprehension (λ qr, h ← cell L qr; Ok (u h))
                     (get_neighbours L coordinates);
  Ok (np_mean us).

(** The loop of [if_receptive] over the neighbours, with its early return. *)
Fixpoint any_frozen (L : CrystalLattice) (hexes : list coord) : result bool :=
  match hexes with
  | [] => Ok false
  | hex :: rest =>
      h ← cell L hex;
      if ge1 (state h) then Ok true else any_frozen L rest
  end.

Definition if_receptive (L : CrystalLattice) (hexagon_coordinates : coord)
    : result bool :=
  h ← cell L hexagon_coordinates;
  if ge1 (state h) then Ok true
  else any_frozen L (get_neighbours L hexagon_coordinates).

(** ** The termination test *)

(** The set literal of [all_ends_frozen]: a Python set, so equal tuples
    collapse into one element.  The loop over it only counts, so the order
    in which the set is traversed does not matter. *)
Definition branch_ends (n : Z) : gset coord :=
  {[ (- (n - 1), n - 1); (n - 1, - (n - 1));
     (0, n - 1); (0, - (n - 1)); (n - 1, 0); (- (n - 1), 0) ]}.

(** [for c in cs: if self.lattice[c].state >= 1: count += 1] *)
Fixpoint count_frozen (L : CrystalLattice) (cs : list coord) (count : nat)
    : result nat :=
  match cs with
  | [] => Ok count
  | c :: rest =>
      h ← cell L c;
      count_frozen L rest (if ge1 (state h) then S count else count)
  end.

(** [l[-k]] for [k >= 1] *)
Definition from_end (l : list nat) (k : nat) : option nat := rev l !! (k - 1)%nat.

Definition all_ends_frozen (L : CrystalLattice) : result bool :=
  frozen_ends ← count_frozen L (elements (branch_ends (size_ L))) 0%nat;
  let frozen_list := [0%nat] in
  frozen ← count_frozen L (keys (lattice L)) 0%nat;
  let frozen_list := frozen_list ++ [frozen] in
  if bool_decide (frozen_ends = 6%nat)
     || bool_decide (from_end frozen_list 1 = from_end frozen_list 2)
  then SystemExit [PrintLine frozen (beta L) (gamma L);
                   SaveImage (beta L) (gamma L)]
  else Ok false.

(** ** One time step *)

Definition phase1_body (hex : coord) (L : CrystalLattice)
    : result CrystalLattice :=
  m ← umean_neighbours L hex;
  setattr hex (set_mean_u m) L.

Definition phase2_body (hex : coord) (L : CrystalLattice)
    : result CrystalLattice :=
  frozen_near ← if_receptive L hex;
  if (frozen_near : bool) then
    L ← setattr hex (set_u (of_Z 0)) L;
    L ← setattr hex (λ h, set_v (state h) h) L;
    setattr hex (set_receptive true) L
  else
    L ← setattr hex (λ h, set_u (state h) h) L;
    setattr hex (set_v (of_Z 0)) L.

Definition phase3_body (hex : coord) (L : CrystalLattice)
    : result CrystalLattice :=
  L ← setattr hex
        (λ h, set_u (nadd (u h)
                          (nmul (ndiv (alpha L) (of_Z 2))
                                (nsub (mean_u h) (u h)))) h) L;
  h ← cell L hex;
  L ← (if receptive h
       then setattr hex (λ h, set_v (nadd (v h) (gamma L)) h) L
       else Ok L);
  setattr hex (λ h, set_state (nadd (u h) (v h)) h) L.

(** The three loops of [diffusion], each visiting the cells in a given
    order. *)
Definition phases (o1 o2 o3 : list coord) (L : CrystalLattice)
    : result CrystalLattice :=
  L ← for_each o1 phase1_body L;
  L ← for_each o2 phase2_body L;
  for_each o3 phase3_body L.

Definition diffusion_by (o1 o2 o3 : list coord) (L : CrystalLattice)
    : result CrystalLattice :=
  stop ← all_ends_frozen L;
  if (stop : bool) then Ok L else phases o1 o2 o3 L.

(** [diffusion]: every loop runs over [self.lattice.keys()] of the lattice as
    it is when the loop starts. *)
Definition diffusion (L : CrystalLattice) : result CrystalLattice :=
  stop ← all_ends_frozen L;
  if (stop : bool) then Ok L else
  L ← for_each (keys (lattice L)) phase1_body L;
  L ← for_each (keys (lattice L)) phase2_body L;
  for_each (keys (lattice L)) phase3_body L.

(** The driver: [k] calls of [diffusion] in a row. *)
Fixpoint steps (k : nat) (L : CrystalLattice) : result CrystalLattice :=
  match k with
  | O => Ok L
  | S k' => L' ← diffusion L; steps k' L'
  end.


(** ** Well-formed dictionaries and pure readings of the lookups *)

(** What every Python dict satisfies: [keys()] lists each key once and lists
    exactly the keys that hold a value. *)
Definition wf_dict (d : dict) : Prop :=
  NoDup (keys d) ∧ ∀ c, c ∈ keys d ↔ is_Some (dict_lookup d c).

(** The cell stored at [c], as an option. *)
Definition at_ (L : CrystalLattice) (c : coord) : option Hexagon :=
  dict_lookup (lattice L) c.

(** The lattice with the cell object at [c] replaced by [h]. *)
Definition put (c : coord) (h : Hexagon) (L : CrystalLattice) : CrystalLattice :=
  with_lattice (mkDict (<[c := h]> (items (lattice L))) (keys (lattice L))) L.

(** The [u] values of the cells in [cs]. *)
Definition us_of (L : CrystalLattice) (cs : list coord) : list num :=
  omap (λ qr, u <$> at_ L qr) cs.

(** [state >= 1] at a coordinate. *)
Definition frozen_at (L : CrystalLattice) (c : coord) : bool :=
  match at_ L c with
  | Some h => ge1 (state h)
  | None => false
  end.

(** The classification computed by [if_receptive] for the cell [h] at [c]. *)
Definition classified (L : CrystalLattice) (c : coord) (h : Hexagon) : bool :=
  ge1 (state h) || existsb (frozen_at L) (get_neighbours L c).

(** What each of the three loop bodies does to the cell it visits. *)
Definition g1 (L : CrystalLattice) (c : coord) (h : Hexagon) : Hexagon :=
  set_mean_u (np_mean (us_of L (get_neighbours L c))) h.

Definition g2 (L : CrystalLattice) (c : coord) (h : Hexagon) : Hexagon :=
  if classified L c h
  then mkHexagon (of_Z 0) (state h) (state h) (mean_u h) true
  else mkHexagon (state h) (of_Z 0) (state h) (mean_u h) (receptive h).

Definition relax (a : num) (h : Hexagon) : num :=
  nadd (u h) (nmul (ndiv a (of_Z 2)) (nsub (mean_u h) (u h))).

Definition g3 (L : CrystalLattice) (c : coord) (h : Hexagon) : Hexagon :=
  let u' := relax (alpha L) h in
  let v' := if receptive h then nadd (v h) (gamma L) else v h in
  mkHexagon u' v' (nadd u' v') (mean_u h) (receptive h).

(** All cells listed in [ks] rewritten at once by [g]. *)
Definition update_all (g : coord → Hexagon → Hexagon) (ks : list coord)
    (L : CrystalLattice) : CrystalLattice :=
  with_lattice
    (mkDict (map_imap (λ c h, Some (if bool_decide (c ∈ ks) then g c h else h))
                      (items (lattice L)))
            (keys (lattice L))) L.

(** The whole step as a function of the lattice it starts from. *)
Definition step_cell (L : CrystalLattice) (c : coord) (h : Hexagon) : Hexagon :=
  g3 L c (g2 L c (g1 L c h)).

Definition step_all (L : CrystalLattice) : CrystalLattice :=
  update_all (step_cell L) (keys (lattice L)) L.

(** The number of coordinates of [cs] whose cell has [state >= 1]. *)
Definition frozen_count (L : CrystalLattice) (cs : list coord) : nat :=
  length (filter (λ c, frozen_at L c = true) cs).

(** The condition of the [if] of [all_ends_frozen]. *)
Definition stop_condition (L : CrystalLattice) : bool :=
  bool_decide (frozen_count L (elements (branch_ends (size_ L))) = 6%nat)
  || bool_decide (frozen_count L (keys (lattice L)) = 0%nat).

(** ** The hexagonal region *)

(** The coordinates of the hexagon of radius [n]. *)
Definition in_hex (n : Z) (c : coord) : Prop :=
  (- n ≤ c.1 ≤ n) ∧ (- n ≤ c.2 ≤ n) ∧ (- n ≤ c.1 + c.2 ≤ n).

(** The keys that [create_hexagonal_lattice] inserts for one [q], and for
    all of them, in the order of insertion. *)
Definition hex_row (n q : Z) : list coord :=
  r ← range (- n) (n + 1);
  if bool_decide (q + r > n) || bool_decide (q + r < - n) then [] else [(r, q)].

Definition hex_cells (n : Z) : list coord :=
  q ← range (- n) (n + 1); hex_row n q.

(** The cell objects that the constructor creates. *)
Definition seed : Hexagon := mkHexagon (of_Z 0) (of_Z 1) (of_Z 1) (of_Z 0) false.
Definition vapour (b : num) : Hexagon := mkHexagon b (of_Z 0) b (of_Z 0) false.

Definition new_cell (b : num) (c : coord) : Hexagon :=
  if bool_decide (c.2 ≠ 0) || bool_decide (c.1 ≠ 0) then vapour b else seed.

Definition add_cell (L : CrystalLattice) (c : coord) : CrystalLattice :=
  with_lattice (dict_set c (new_cell (beta L) c) (lattice L)) L.

(** The six tuples written in the set literal of [all_ends_frozen]. *)
Definition branch_end_list (n : Z) : list coord :=
  [(- (n - 1), n - 1); (n - 1, - (n - 1));
   (0, n - 1); (0, - (n - 1)); (n - 1, 0); (- (n - 1), 0)].

(** The output of the stopping branch of [all_ends_frozen]. *)
Definition exit_io (L : CrystalLattice) : list effect :=
  [PrintLine (frozen_count L (keys (lattice L))) (beta L) (gamma L);
   SaveImage (beta L) (gamma L)].

(** A lattice whose dict holds exactly the cells of the hexagon of radius
    [n]. *)
Definition hex_domain (n : Z) (L : CrystalLattice) : Prop :=
  ∀ c, is_Some (at_ L c) ↔ in_hex n c.

(** ** Order on the numbers and the physical range of the parameters *)

Definition nonneg (x : num) : Prop :=
  match x with
  | Fin a => (0 <= a)%Q
  | NaN => False
  end.

(** [x <= y]; false when either side is NaN. *)
Definition nle (x y : num) : Prop :=
  match x, y with
  | Fin a, Fin b => (a <= b)%Q
  | _, _ => False
  end.

(** [0 <= alpha <= 2] and [gamma >= 0]. *)
Definition physical (L : CrystalLattice) : Prop :=
  ∃ a g, alpha L = Fin a ∧ gamma L = Fin g ∧
         (0 <= a)%Q ∧ (a <= 2)%Q ∧ (0 <= g)%Q.

(** What holds of every cell during a run with physical parameters: the
    mobile mass and the total mass are non-negative numbers, and a raised
    flag means the cell is still classified receptive. *)
Definition cell_ok (L : CrystalLattice) (c : coord) (h : Hexagon) : Prop :=
  nonneg (u h) ∧ nonneg (state h) ∧
  (receptive h = true → classified L c h = true).

Definition run_invariant (n : Z) (L : CrystalLattice) : Prop :=
  size_ L = n ∧ wf_dict (lattice L) ∧ hex_domain n L ∧ physical L ∧
  ∀ c h, at_ L c = Some h → cell_ok L c h.

(** What a run keeps: the size, the key list and the domain. *)
Definition same_shape (n : Z) (L : CrystalLattice) : Prop :=
  size_ L = n ∧ wf_dict (lattice L) ∧ hex_domain n L.

(** ** The remaining topology helpers of the source *)

(** [is_edge] *)
Definition is_edge (L : CrystalLattice) (coordinates : coord) : bool :=
  if bool_decide (coordinates.1 ∈ [size_ L; - size_ L])
     || bool_decide (coordinates.2 ∈ [size_ L; - size_ L])
  then true else false.

(** [eq_neighbours]; the coordinates are integers, so [%] is the integer
    remainder with the sign of the divisor.  [None] stands for the Python
    [None] that a call returns when no branch of the chain is taken. *)
Definition eq_neighbours (coordinate : coord) : option (coord * coord) :=
  let r := coordinate.1 in
  let q := coordinate.2 in
  if bool_decide (r < 0) && bool_decide (r `mod` 2 = 0) && bool_decide (q > 0)
  then Some ((r + 1, q - 1), (r + 1, q - 2))
  else if bool_decide (r > 0) && bool_decide (r `mod` 2 = 0)
          && bool_decide (q < 0)
  then Some ((r - 1, q - 1), (r - 1, q + 2))
  else if bool_decide (r > 0) && bool_decide (q < 0)
          && bool_decide (q `mod` 2 = 0)
  then Some ((r + 1, q + 1), (r - 2, q + 1))
  else if bool_decide (r < 0) && bool_decide (q > 0)
          && bool_decide (q `mod` 2 = 0)
  then Some ((r + 2, q - 1), (r - 1, q - 1))
  else if (bool_decide (r < 0) && bool_decide (q > 0))
          || (bool_decide (r > 0) && bool_decide (q < 0))
  then Some ((r - 1, q - 1), (r + 1, q + 1))
  else if bool_decide (r ≠ 0)
  then Some ((r + 1, q - 2), (r - 1, q + 2))
  else if bool_decide (q > 0)
  then Some ((r - 2, q + 1), (r + 2, q - 1))
  else if bool_decide (r = 0)
  then Some ((r + 2, q - 1), (r - 2, q + 1))
  else if bool_decide (q = 0)
  then Some ((r - 1, q + 2), (r + 1, q - 2))
  else None.


(** The six cells two steps away from [c] in the corner directions of the
    hexagon (none of them is one of the six candidates of
    [get_neighbours]). *)
Definition corner_cells (c : coord) : list coord :=
  [(c.1 + 1, c.2 + 1); (c.1 - 1, c.2 - 1); (c.1 + 2, c.2 - 1);
   (c.1 - 2, c.2 + 1); (c.1 + 1, c.2 - 2); (c.1 - 1, c.2 + 2)].

(** Growth stays within [k] rings of the centre: no mobile mass exceeds
    [b], a cell that is neither flagged nor frozen holds at most [b], and
    outside the hexagon of radius [k] no cell is flagged or frozen. *)
Definition confined (b : Q) (k : Z) (L : CrystalLattice) : Prop :=
  ∀ c h, at_ L c = Some h →
    nle (u h) (Fin b) ∧
    (receptive h = false → ge1 (state h) = false → nle (state h) (Fin b)) ∧
    (¬ in_hex k c → receptive h = false ∧ ge1 (state h) = false).

(** Row by row: by the second component, then by the first. *)
Definition row_order (c1 c2 : coord) : Prop :=
  c1.2 < c2.2 ∨ (c1.2 = c2.2 ∧ c1.1 < c2.1).

(** ** Lattices used in the examples *)

(** [CrystalLattice(1, 1, 0.3, 0.001)] *)
Definition demo : CrystalLattice :=
  CrystalLattice_init 1 (Fin 1) (Fin (3 # 10)) (Fin (1 # 1000)).

(** [CrystalLattice(2, 1, 0.3, 0.001)] *)
Definition demo2 : CrystalLattice :=
  CrystalLattice_init 2 (Fin 1) (Fin (3 # 10)) (Fin (1 # 1000)).

(** [CrystalLattice(2, 1, 0.9, 0.2)] *)
Definition fast2 : CrystalLattice :=
  CrystalLattice_init 2 (Fin 1) (Fin (9 # 10)) (Fin (1 # 5)).

(** [CrystalLattice(0, 1, 0.3, 0.001)] *)
Definition demo0 : CrystalLattice :=
  CrystalLattice_init 0 (Fin 1) (Fin (3 # 10)) (Fin (1 # 1000)).


(** ** Basic facts *)

Lemma bind_Ok {A B} (m : result A) (k : A → result B) (b : B) :
  m ≫= k = Ok b → ∃ a, m = Ok a ∧ k a = Ok b.
Proof. destruct m as [a| |io]; simpl; intros E; [eauto|discriminate..]. Qed.

Lemma cell_Some L c h : at_ L c = Some h → cell L c = Ok h.
Proof. unfold cell, dict_get, at_. by intros ->. Qed.

Lemma cell_Ok L c h : cell L c = Ok h → at_ L c = Some h.
Proof.
  unfold cell, dict_get, at_. destruct (dict_lookup _ _); intros E; by inversion E.
Qed.

Lemma setattr_Some L c f h : at_ L c = Some h → setattr c f L = Ok (put c (f h) L).
Proof. intros E. unfold setattr. by rewrite (cell_Some _ _ _ E). Qed.

Lemma at_put c h L c' :
  at_ (put c h L) c' = if decide (c = c') then Some h else at_ L c'.
Proof. unfold at_, put, dict_lookup; simpl. apply lookup_insert. Qed.

Lemma at_put_eq c h L : at_ (put c h L) c = Some h.
Proof. rewrite at_put. by rewrite decide_True. Qed.

Lemma at_put_ne c h L c' : c ≠ c' → at_ (put c h L) c' = at_ L c'.
Proof. intros. rewrite at_put. by rewrite decide_False. Qed.

Lemma put_put c h1 h2 L : put c h2 (put c h1 L) = put c h2 L.
Proof. unfold put, with_lattice; simpl. by rewrite insert_insert_eq. Qed.

Lemma at_update_all g ks L c :
  at_ (update_all g ks L) c =
  (λ h, if bool_decide (c ∈ ks) then g c h else h) <$> at_ L c.
Proof.
  unfold at_, update_all, dict_lookup; simpl. rewrite map_lookup_imap.
  by destruct (items (lattice L) !! c).
Qed.

(** Two lattices with the same parameters, the same key order and the same
    cell at every coordinate are equal. *)
Lemma lattice_eq L1 L2 :
  size_ L1 = size_ L2 → alpha L1 = alpha L2 → beta L1 = beta L2 →
  gamma L1 = gamma L2 → keys (lattice L1) = keys (lattice L2) →
  (∀ c, at_ L1 c = at_ L2 c) → L1 = L2.
Proof.
  destruct L1 as [s1 [m1 k1] a1 b1 c1], L2 as [s2 [m2 k2] a2 b2 c2].
  unfold at_, dict_lookup; simpl. intros -> -> -> -> -> E.
  by rewrite (map_eq m1 m2 E).
Qed.

Lemma dict_in_put c h L c' h0 :
  at_ L c = Some h0 → dict_in c' (lattice (put c h L)) = dict_in c' (lattice L).
Proof.
  intros E. unfold dict_in. apply bool_decide_ext.
  change (is_Some (at_ (put c h L) c') ↔ is_Some (at_ L c')).
  rewrite at_put. case_decide; [subst c'|done].
  rewrite E. split; eauto.
Qed.

Lemma get_neighbours_put c h L c' h0 :
  at_ L c = Some h0 → get_neighbours (put c h L) c' = get_neighbours L c'.
Proof.
  intros E. destruct c' as [q r]. unfold get_neighbours.
  apply list_filter_iff. intros qr. by rewrite (dict_in_put _ _ _ _ _ E).
Qed.

Lemma get_neighbours_in L c qr :
  qr ∈ get_neighbours L c → is_Some (at_ L qr).
Proof.
  destruct c as [q r]. unfold get_neighbours. rewrite list_elem_of_filter.
  intros [E _]. unfold dict_in in E. by apply bool_decide_eq_true in E.
Qed.

(** ** The helpers never raise on cells of the lattice *)

Lemma comprehension_us L cs :
  (∀ qr, qr ∈ cs → is_Some (at_ L qr)) →
  comprehension (λ qr, h ← cell L qr; Ok (u h)) cs = Ok (us_of L cs).
Proof.
  induction cs as [|qr cs IH]; intros Hin; [done|].
  destruct (Hin qr) as [h Eh]; [by left|].
  unfold us_of in *. simpl. rewrite (cell_Some _ _ _ Eh). simpl.
  rewrite IH; [|intros; apply Hin; by right]. by rewrite Eh.
Qed.

Lemma umean_neighbours_eq L c :
  umean_neighbours L c = Ok (np_mean (us_of L (get_neighbours L c))).
Proof.
  unfold umean_neighbours.
  rewrite comprehension_us; [done|]. apply get_neighbours_in.
Qed.

Lemma any_frozen_eq L cs :
  (∀ qr, qr ∈ cs → is_Some (at_ L qr)) →
  any_frozen L cs = Ok (existsb (frozen_at L) cs).
Proof.
  induction cs as [|qr cs IH]; intros Hin; [done|].
  destruct (Hin qr) as [h Eh]; [by left|].
  simpl. rewrite (cell_Some _ _ _ Eh). simpl. unfold frozen_at at 1. rewrite Eh.
  destruct (ge1 (state h)); [done|]. apply IH. intros; apply Hin; by right.
Qed.

Lemma if_receptive_eq L c h :
  at_ L c = Some h → if_receptive L c = Ok (classified L c h).
Proof.
  intros Eh. unfold if_receptive, classified. rewrite (cell_Some _ _ _ Eh). simpl.
  destruct (ge1 (state h)); [done|]. apply any_frozen_eq, get_neighbours_in.
Qed.

(** ** Each loop body rewrites the visited cell *)

Lemma phase1_body_eq L c h :
  at_ L c = Some h → phase1_body c L = Ok (put c (g1 L c h) L).
Proof.
  intros Eh. unfold phase1_body. rewrite umean_neighbours_eq. simpl.
  by rewrite (setattr_Some _ _ _ _ Eh).
Qed.

Lemma phase2_body_eq L c h :
  at_ L c = Some h → phase2_body c L = Ok (put c (g2 L c h) L).
Proof.
  intros Eh. unfold phase2_body, g2. rewrite (if_receptive_eq _ _ _ Eh). simpl.
  destruct (classified L c h).
  - rewrite (setattr_Some _ _ _ _ Eh). simpl.
    rewrite (setattr_Some _ _ _ _ (at_put_eq _ _ _)). simpl.
    rewrite (setattr_Some _ _ _ _ (at_put_eq _ _ _)).
    by rewrite !put_put.
  - rewrite (setattr_Some _ _ _ _ Eh). simpl.
    rewrite (setattr_Some _ _ _ _ (at_put_eq _ _ _)).
    by rewrite !put_put.
Qed.

Lemma phase3_body_eq L c h :
  at_ L c = Some h → phase3_body c L = Ok (put c (g3 L c h) L).
Proof.
  intros Eh. unfold phase3_body, g3, relax.
  rewrite (setattr_Some _ _ _ _ Eh). simpl.
  rewrite (cell_Some _ _ _ (at_put_eq _ _ _)). simpl.
  destruct h as [hu hv hs hm []]; simpl.
  - rewrite (setattr_Some _ _ _ _ (at_put_eq _ _ _)). simpl.
    rewrite (setattr_Some _ _ _ _ (at_put_eq _ _ _)).
    by rewrite !put_put.
  - rewrite (setattr_Some _ _ _ _ (at_put_eq _ _ _)).
    by rewrite !put_put.
Qed.

(** ** A loop over distinct keys is one simultaneous update *)

Section for_each_update.
Variable body : coord → CrystalLattice → result CrystalLattice.
Variable g : CrystalLattice → coord → Hexagon → Hexagon.

Hypothesis body_eq : ∀ L c h,
  at_ L c = Some h → body c L = Ok (put c (g L c h) L).

(** Rewriting one cell does not change what the body does to another. *)
Hypothesis g_stable : ∀ L c h c' h',
  at_ L c = Some h → c' ≠ c → at_ L c' = Some h' →
  g (put c (g L c h) L) c' h' = g L c' h'.

Lemma for_each_update_all ks : ∀ L,
  NoDup ks → (∀ c, c ∈ ks → is_Some (at_ L c)) →
  for_each ks body L = Ok (update_all (g L) ks L).
Proof.
  induction ks as [|k ks IH]; intros L Hnd Hin.
  - simpl. f_equal. apply lattice_eq; try done.
    intros c. rewrite at_update_all. by destruct (at_ L c).
  - apply NoDup_cons in Hnd as [Hk Hnd].
    destruct (Hin k) as [h Eh]; [by left|].
    simpl. rewrite (body_eq _ _ _ Eh). simpl. rewrite IH; [|done|].
    + f_equal. apply lattice_eq; try done.
      intros c. rewrite !at_update_all, at_put.
      case_decide as Hne.
      * subst c. rewrite Eh. simpl. rewrite (bool_decide_eq_false_2 _ Hk).
        rewrite bool_decide_eq_true_2; [done|by left].
      * destruct (at_ L c) as [h'|] eqn:Ec; [simpl|done].
        destruct (decide (c ∈ ks)) as [Hc|Hc].
        -- rewrite !bool_decide_eq_true_2; [|by right|done].
           f_equal. apply g_stable; [done|congruence|done].
        -- rewrite !bool_decide_eq_false_2; [done| |done].
           apply not_elem_of_cons. split; [congruence|done].
    + intros c Hc. rewrite at_put.
      case_decide; [eauto|]. apply Hin. by right.
Qed.
End for_each_update.

Lemma us_of_put c x L cs h :
  at_ L c = Some h → u x = u h → us_of (put c x L) cs = us_of L cs.
Proof.
  intros Eh Eu. unfold us_of. induction cs as [|qr cs IH]; [done|].
  cbn [omap list_omap]. rewrite IH, at_put. case_decide; [subst qr|done].
  rewrite Eh. simpl. by rewrite Eu.
Qed.

Lemma frozen_at_put c x L h c' :
  at_ L c = Some h → state x = state h → frozen_at (put c x L) c' = frozen_at L c'.
Proof.
  intros Eh Es. unfold frozen_at. rewrite at_put.
  case_decide; [subst c'|done]. by rewrite Eh, Es.
Qed.

Lemma classified_put c x L h c' h' :
  at_ L c = Some h → state x = state h →
  classified (put c x L) c' h' = classified L c' h'.
Proof.
  intros Eh Es. unfold classified. rewrite (get_neighbours_put _ _ _ _ _ Eh).
  f_equal. induction (get_neighbours L c') as [|qr l IH]; [done|].
  simpl. by rewrite IH, (frozen_at_put _ _ _ _ _ Eh Es).
Qed.

Lemma phase1_loop ks L :
  NoDup ks → (∀ c, c ∈ ks → is_Some (at_ L c)) →
  for_each ks phase1_body L = Ok (update_all (g1 L) ks L).
Proof.
  apply (for_each_update_all phase1_body g1 phase1_body_eq).
  intros L0 c h c' h' Eh _ _. unfold g1.
  by rewrite (get_neighbours_put _ _ _ _ _ Eh), (us_of_put _ _ _ _ _ Eh).
Qed.

Lemma state_g2 L c h : state (g2 L c h) = state h.
Proof. unfold g2. by destruct (classified L c h). Qed.

Lemma phase2_loop ks L :
  NoDup ks → (∀ c, c ∈ ks → is_Some (at_ L c)) →
  for_each ks phase2_body L = Ok (update_all (g2 L) ks L).
Proof.
  apply (for_each_update_all phase2_body g2 phase2_body_eq).
  intros L0 c h c' h' Eh _ _. unfold g2.
  by rewrite (classified_put _ _ _ _ _ _ Eh (state_g2 L0 c h)).
Qed.

Lemma phase3_loop ks L :
  NoDup ks → (∀ c, c ∈ ks → is_Some (at_ L c)) →
  for_each ks phase3_body L = Ok (update_all (g3 L) ks L).
Proof.
  by apply (for_each_update_all phase3_body g3 phase3_body_eq).
Qed.

(** The visiting order of a simultaneous update is irrelevant. *)
Lemma update_all_perm g ks ks' L :
  ks ≡ₚ ks' → update_all g ks L = update_all g ks' L.
Proof.
  intros Hp. apply lattice_eq; try done.
  intros c. rewrite !at_update_all. destruct (at_ L c); [simpl|done].
  by rewrite (bool_decide_ext (c ∈ ks) (c ∈ ks')) by (by rewrite Hp).
Qed.

Lemma is_Some_update_all g ks L c :
  is_Some (at_ (update_all g ks L) c) ↔ is_Some (at_ L c).
Proof. rewrite at_update_all. apply fmap_is_Some. Qed.

Lemma get_neighbours_ext L1 L2 c :
  (∀ c, is_Some (at_ L1 c) ↔ is_Some (at_ L2 c)) →
  get_neighbours L1 c = get_neighbours L2 c.
Proof.
  intros E. destruct c as [q r]. unfold get_neighbours.
  apply list_filter_iff. intros qr. unfold dict_in.
  by rewrite (bool_decide_ext _ _ (E qr)).
Qed.

Lemma classified_ext L1 L2 c h1 h2 :
  (∀ c, state <$> at_ L1 c = state <$> at_ L2 c) → state h1 = state h2 →
  classified L1 c h1 = classified L2 c h2.
Proof.
  intros E Es. unfold classified. rewrite Es.
  rewrite (get_neighbours_ext L1 L2).
  - f_equal. induction (get_neighbours L2 c) as [|qr l IH]; [done|].
    simpl. rewrite IH. f_equal. unfold frozen_at.
    specialize (E qr). destruct (at_ L1 qr), (at_ L2 qr); simplify_eq/=; congruence.
  - intros c0. rewrite <- !(fmap_is_Some state). by rewrite E.
Qed.


Lemma phases_eq o1 o2 o3 L :
  wf_dict (lattice L) →
  o1 ≡ₚ keys (lattice L) → o2 ≡ₚ keys (lattice L) → o3 ≡ₚ keys (lattice L) →
  phases o1 o2 o3 L = Ok (step_all L).
Proof.
  intros [Hnd Hk] P1 P2 P3. unfold phases.
  assert (∀ o, o ≡ₚ keys (lattice L) → ∀ c, c ∈ o → is_Some (at_ L c)) as Hin.
  { intros o P c Hc. apply Hk. by rewrite <- P. }
  rewrite phase1_loop; [simpl|by rewrite P1|by apply Hin].
  rewrite phase2_loop; [simpl|by rewrite P2|].
  2:{ intros c Hc. apply is_Some_update_all. by apply (Hin o2). }
  rewrite phase3_loop; [|by rewrite P3|].
  2:{ intros c Hc. apply is_Some_update_all, is_Some_update_all. by apply (Hin o3). }
  f_equal. apply lattice_eq; try done.
  intros c. unfold step_all. rewrite !at_update_all.
  destruct (at_ L c) as [h|] eqn:Ec; [simpl|done].
  assert (c ∈ keys (lattice L)) as Hc by (apply Hk; unfold at_ in Ec; eauto).
  rewrite !bool_decide_eq_true_2; [|done|by rewrite P1|by rewrite P2|by rewrite P3].
  f_equal. unfold step_cell.
  assert (g2 (update_all (g1 L) o1 L) c (g1 L c h) = g2 L c (g1 L c h))
    as ->; [|done].
  unfold g2.
  rewrite (classified_ext _ L c (g1 L c h) (g1 L c h)); [done| |done].
  intros c0. rewrite at_update_all. destruct (at_ L c0); [simpl|done].
  by case_bool_decide.
Qed.

(** ** The termination test, read as a function of two counts *)


Lemma count_frozen_eq L cs n :
  (∀ c, c ∈ cs → is_Some (at_ L c)) →
  count_frozen L cs n = Ok (n + frozen_count L cs)%nat.
Proof.
  revert n. induction cs as [|c cs IH]; intros n Hin.
  - simpl. f_equal. unfold frozen_count. simpl. lia.
  - destruct (Hin c) as [h Eh]; [by left|].
    simpl. rewrite (cell_Some _ _ _ Eh). simpl.
    rewrite IH by (intros; apply Hin; by right). f_equal.
    unfold frozen_count. rewrite filter_cons.
    assert (frozen_at L c = ge1 (state h)) as Ef
      by (unfold frozen_at; by rewrite Eh).
    destruct (ge1 (state h)); case_decide; simpl; try lia; congruence.
Qed.

Lemma count_frozen_present {A} L cs n (k : nat → result A) a :
  count_frozen L cs n ≫= k = Ok a → ∀ c, c ∈ cs → is_Some (at_ L c).
Proof.
  revert n. induction cs as [|c cs IH]; intros n E c0 Hc0.
  - by apply elem_of_nil in Hc0.
  - simpl in E. destruct (cell L c) as [h| |] eqn:Ec; try discriminate E.
    simpl in E. apply elem_of_cons in Hc0 as [->|Hc0].
    + apply cell_Ok in Ec. eauto.
    + by eapply IH.
Qed.

Lemma all_ends_frozen_eq L :
  (∀ c, c ∈ elements (branch_ends (size_ L)) → is_Some (at_ L c)) →
  (∀ c, c ∈ keys (lattice L) → is_Some (at_ L c)) →
  all_ends_frozen L =
  if stop_condition L
  then SystemExit [PrintLine (frozen_count L (keys (lattice L))) (beta L) (gamma L);
                   SaveImage (beta L) (gamma L)]
  else Ok false.
Proof.
  intros He Hk. unfold all_ends_frozen, stop_condition.
  rewrite (count_frozen_eq _ _ _ He). simpl.
  rewrite (count_frozen_eq _ _ _ Hk). simpl.
  change (from_end [0%nat; ?b] 1) with (Some b).
  change (from_end [0%nat; ?b] 2) with (Some 0%nat).
  rewrite (bool_decide_ext (Some _ = Some 0%nat)
             (frozen_count L (keys (lattice L)) = 0%nat)); [done|].
  split; [by intros [=]|by intros ->].
Qed.

(** [all_ends_frozen] has no path that returns [True]. *)
Lemma all_ends_frozen_not_True L : all_ends_frozen L ≠ Ok true.
Proof.
  unfold all_ends_frozen.
  destruct (count_frozen L (elements _) 0) as [fe| |]; simpl; [|done..].
  destruct (count_frozen L (keys _) 0) as [fr| |]; simpl; [|done..].
  by destruct (_ || _).
Qed.

(** ** A completed step *)

Lemma wf_step_all L : wf_dict (lattice L) → wf_dict (lattice (step_all L)).
Proof.
  intros [Hnd Hk]. split; [done|]. intros c. simpl.
  change (c ∈ keys (lattice L) ↔ is_Some (at_ (step_all L) c)).
  unfold step_all. rewrite is_Some_update_all. apply Hk.
Qed.

Lemma diffusion_unfold L :
  wf_dict (lattice L) →
  diffusion L = stop ← all_ends_frozen L;
                if (stop : bool) then Ok L else Ok (step_all L).
Proof.
  intros Hwf. unfold diffusion.
  destruct (all_ends_frozen L) as [[]| |]; simpl; try done.
  rewrite <- (phases_eq (keys (lattice L)) (keys (lattice L)) (keys (lattice L)))
    by done.
  unfold phases. destruct Hwf as [Hnd Hk].
  rewrite phase1_loop; [simpl|done|by intros; apply Hk].
  rewrite phase2_loop; [done|done|].
  intros c Hc. apply is_Some_update_all. by apply Hk.
Qed.

Lemma diffusion_Ok L L' :
  wf_dict (lattice L) → diffusion L = Ok L' →
  all_ends_frozen L = Ok false ∧ L' = step_all L.
Proof.
  intros Hwf. rewrite (diffusion_unfold _ Hwf).
  pose proof (all_ends_frozen_not_True L) as Hn.
  destruct (all_ends_frozen L) as [[]| |]; simpl; try done.
  by intros [= <-].
Qed.

Lemma diffusion_by_unfold o1 o2 o3 L :
  wf_dict (lattice L) →
  o1 ≡ₚ keys (lattice L) → o2 ≡ₚ keys (lattice L) → o3 ≡ₚ keys (lattice L) →
  diffusion_by o1 o2 o3 L = diffusion L.
Proof.
  intros Hwf P1 P2 P3. rewrite (diffusion_unfold _ Hwf). unfold diffusion_by.
  destruct (all_ends_frozen L) as [[]| |]; simpl; try done.
  by apply phases_eq.
Qed.

Lemma at_step_all L c :
  wf_dict (lattice L) → at_ (step_all L) c = step_cell L c <$> at_ L c.
Proof.
  intros [_ Hk]. unfold step_all. rewrite at_update_all.
  destruct (at_ L c) as [h|] eqn:Ec; [simpl|done].
  rewrite bool_decide_eq_true_2; [done|]. apply Hk. unfold at_ in Ec. eauto.
Qed.

(** ** Construction *)

Lemma create_cell_eq L q r :
  create_cell L q r =
  foldl add_cell L
    (if bool_decide (q + r > size_ L) || bool_decide (q + r < - size_ L)
     then [] else [(r, q)]).
Proof.
  unfold create_cell, add_cell, new_cell, vapour, seed.
  destruct (_ || _); [done|]. simpl. by destruct (_ || _).
Qed.

Lemma foldl_add_cell_frame L cs :
  size_ (foldl add_cell L cs) = size_ L ∧ alpha (foldl add_cell L cs) = alpha L ∧
  beta (foldl add_cell L cs) = beta L ∧ gamma (foldl add_cell L cs) = gamma L.
Proof.
  revert L. induction cs as [|c cs IH]; intros L; [done|].
  simpl. by destruct (IH (add_cell L c)) as (-> & -> & -> & ->).
Qed.

Lemma create_row_eq q rs : ∀ L,
  foldl (λ L r, create_cell L q r) L rs =
  foldl add_cell L
    (r ← rs; if bool_decide (q + r > size_ L) || bool_decide (q + r < - size_ L)
             then [] else [(r, q)]).
Proof.
  induction rs as [|r rs IH]; intros L; [done|].
  simpl. rewrite IH, create_cell_eq, <- foldl_app.
  by destruct (foldl_add_cell_frame L
    (if bool_decide (q + r > size_ L) || bool_decide (q + r < - size_ L)
     then [] else [(r, q)])) as (-> & _).
Qed.

Lemma create_hexagonal_lattice_eq L :
  create_hexagonal_lattice L = foldl add_cell L (hex_cells (size_ L)).
Proof.
  unfold create_hexagonal_lattice, hex_cells.
  generalize (range (- size_ L) (size_ L + 1)). intros qs.
  assert (∀ L', size_ L' = size_ L →
    foldl (λ L0 q, foldl (λ L1 r, create_cell L1 q r) L0
                         (range (- size_ L0) (size_ L0 + 1))) L' qs =
    foldl add_cell L' (qs ≫= hex_row (size_ L))) as H; [|by apply H].
  induction qs as [|q qs IH]; intros L' E; [done|].
  simpl. rewrite create_row_eq, E.
  change (r ← range (- size_ L) (size_ L + 1);
          if bool_decide (q + r > size_ L) || bool_decide (q + r < - size_ L)
          then [] else [(r, q)]) with (hex_row (size_ L) q).
  rewrite IH, <- foldl_app; [done|].
  destruct (foldl_add_cell_frame L' (hex_row (size_ L) q)) as (-> & _). done.
Qed.

Lemma foldl_add_cell_spec cs : ∀ L,
  NoDup cs → (∀ c, c ∈ cs → at_ L c = None) →
  keys (lattice (foldl add_cell L cs)) = keys (lattice L) ++ cs ∧
  ∀ c, at_ (foldl add_cell L cs) c =
       if decide (c ∈ cs) then Some (new_cell (beta L) c) else at_ L c.
Proof.
  induction cs as [|k cs IH]; intros L Hnd Hfresh.
  - simpl. split; [by rewrite app_nil_r|done].
  - apply NoDup_cons in Hnd as [Hk Hnd]. simpl.
    assert (at_ L k = None) as Ek by (apply Hfresh; by left).
    assert (∀ c, at_ (add_cell L k) c =
                 if decide (k = c) then Some (new_cell (beta L) k) else at_ L c)
      as Eadd.
    { intros c. unfold at_, add_cell, dict_lookup; simpl. apply lookup_insert. }
    destruct (IH (add_cell L k)) as [Ekeys Eat]; [done| |].
    { intros c Hc. rewrite Eadd. case_decide; [by subst c|].
      apply Hfresh. by right. }
    split.
    + rewrite Ekeys. simpl. unfold dict_in.
      rewrite bool_decide_eq_false_2; [by rewrite <- app_assoc|].
      change (¬ is_Some (at_ L k)). rewrite Ek. by intros [? ?].
    + intros c. rewrite Eat, Eadd. simpl.
      destruct (decide (c ∈ cs)) as [Hc|Hc].
      * rewrite decide_True; [done|by right].
      * case_decide as Hkc.
        -- subst c. rewrite decide_True; [done|by left].
        -- rewrite decide_False; [done|].
           apply not_elem_of_cons. split; [congruence|done].
Qed.

Lemma elem_of_range a b x : x ∈ range a b ↔ a ≤ x < b.
Proof. unfold range. rewrite elem_of_seqZ. lia. Qed.

Lemma elem_of_hex_row n q c :
  c ∈ hex_row n q ↔ c.2 = q ∧ (- n ≤ c.1 ≤ n) ∧ (- n ≤ q + c.1 ≤ n).
Proof.
  unfold hex_row. rewrite list_elem_of_bind. split.
  - intros (r & Hc & Hr). apply elem_of_range in Hr.
    destruct (bool_decide (q + r > n)) eqn:E1; simpl in Hc;
      [by apply elem_of_nil in Hc|].
    destruct (bool_decide (q + r < - n)) eqn:E2; simpl in Hc;
      [by apply elem_of_nil in Hc|].
    apply list_elem_of_singleton in Hc. subst c. simpl.
    apply bool_decide_eq_false in E1, E2. lia.
  - destruct c as [r q']. simpl. intros (-> & Hr & Hqr). exists r. split.
    + rewrite !bool_decide_eq_false_2 by lia. simpl. by left.
    + apply elem_of_range. lia.
Qed.

Lemma elem_of_hex_cells n c : c ∈ hex_cells n ↔ in_hex n c.
Proof.
  unfold hex_cells, in_hex. rewrite list_elem_of_bind. split.
  - intros (q & Hc & Hq). apply elem_of_hex_row in Hc. apply elem_of_range in Hq.
    lia.
  - intros (H1 & H2 & H3). exists (c.2). split.
    + apply elem_of_hex_row. lia.
    + apply elem_of_range. lia.
Qed.

Lemma NoDup_hex_row n q : NoDup (hex_row n q).
Proof.
  unfold hex_row. apply NoDup_bind.
  - intros r1 r2 c _ _ H1 H2.
    destruct (_ || _); [by apply elem_of_nil in H1|].
    destruct (_ || _); [by apply elem_of_nil in H2|].
    apply list_elem_of_singleton in H1, H2. congruence.
  - intros r _. destruct (_ || _); [apply NoDup_nil_2|apply NoDup_singleton].
  - apply NoDup_seqZ.
Qed.

Lemma NoDup_hex_cells n : NoDup (hex_cells n).
Proof.
  unfold hex_cells. apply NoDup_bind.
  - intros q1 q2 c _ _ H1 H2. apply elem_of_hex_row in H1, H2. lia.
  - intros q _. apply NoDup_hex_row.
  - apply NoDup_seqZ.
Qed.

(** The constructed lattice, cell by cell. *)
Lemma init_spec n a b g :
  let L := CrystalLattice_init n a b g in
  size_ L = n ∧ alpha L = a ∧ beta L = b ∧ gamma L = g ∧
  keys (lattice L) = hex_cells n ∧
  ∀ c, at_ L c = if decide (in_hex n c) then Some (new_cell b c) else None.
Proof.
  unfold CrystalLattice_init. rewrite create_hexagonal_lattice_eq. simpl.
  destruct (foldl_add_cell_frame (mkCrystalLattice n dict_empty a b g)
              (hex_cells n)) as (-> & -> & -> & ->).
  destruct (foldl_add_cell_spec (hex_cells n)
              (mkCrystalLattice n dict_empty a b g)) as [-> Eat];
    [apply NoDup_hex_cells|done|].
  repeat split; try done. intros c. rewrite Eat. simpl.
  destruct (decide (c ∈ hex_cells n)) as [Hc|Hc].
  - rewrite decide_True; [done|by apply elem_of_hex_cells].
  - rewrite decide_False; [done|by rewrite <- elem_of_hex_cells].
Qed.

Lemma wf_init n a b g : wf_dict (lattice (CrystalLattice_init n a b g)).
Proof.
  destruct (init_spec n a b g) as (_ & _ & _ & _ & Ek & Eat).
  split.
  - rewrite Ek. apply NoDup_hex_cells.
  - intros c. rewrite Ek, elem_of_hex_cells.
    change (in_hex n c ↔ is_Some (at_ (CrystalLattice_init n a b g) c)).
    rewrite Eat. case_decide; split; try done; eauto.
Qed.

(** ** Counting the cells *)

Lemma hex_row_filter n q :
  hex_row n q =
  (λ r, (r, q)) <$> filter (λ r, - n ≤ q + r ≤ n) (range (- n) (n + 1)).
Proof.
  unfold hex_row. induction (range (- n) (n + 1)) as [|r rs IH]; [done|].
  rewrite bind_cons, IH, filter_cons.
  destruct (decide (- n ≤ q + r ≤ n)).
  - by rewrite !bool_decide_eq_false_2 by lia.
  - destruct (decide (q + r > n)).
    + by rewrite bool_decide_eq_true_2 by lia.
    + rewrite (bool_decide_eq_true_2 (q + r < - n)) by lia.
      by rewrite orb_true_r.
Qed.

Lemma length_hex_row n q :
  - n ≤ q ≤ n → length (hex_row n q) = Z.to_nat (2 * n + 1 - Z.abs q).
Proof.
  intros Hq. rewrite hex_row_filter, length_fmap.
  rewrite <- (length_seqZ (Z.max (- n) (- n - q)) (2 * n + 1 - Z.abs q)).
  apply Permutation_length, NoDup_Permutation.
  - apply NoDup_filter, NoDup_seqZ.
  - apply NoDup_seqZ.
  - intros r. rewrite list_elem_of_filter, elem_of_range, elem_of_seqZ. lia.
Qed.

Lemma seqZ_symmetric_S (m : nat) :
  seqZ (- Z.of_nat (S m)) (2 * Z.of_nat (S m) + 1) =
  - Z.of_nat (S m) :: seqZ (- Z.of_nat m) (2 * Z.of_nat m + 1) ++ [Z.of_nat (S m)].
Proof.
  rewrite seqZ_cons by lia. f_equal.
  replace (Z.pred (2 * Z.of_nat (S m) + 1)) with ((2 * Z.of_nat m + 1) + 1) by lia.
  rewrite seqZ_app by lia.
  replace (Z.succ (- Z.of_nat (S m))) with (- Z.of_nat m) by lia.
  f_equal. rewrite seqZ_cons, seqZ_nil by lia. f_equal. lia.
Qed.

Lemma length_hex_rows n (m : nat) :
  Z.of_nat m ≤ n →
  Z.of_nat (length (seqZ (- Z.of_nat m) (2 * Z.of_nat m + 1) ≫= hex_row n)) =
  (2 * Z.of_nat m + 1) * (2 * n + 1) - Z.of_nat m * (Z.of_nat m + 1).
Proof.
  induction m as [|m IH]; intros Hm.
  - change (seqZ (- Z.of_nat 0) (2 * Z.of_nat 0 + 1)) with [0].
    rewrite bind_singleton, length_hex_row by lia. simpl. lia.
  - rewrite seqZ_symmetric_S, bind_cons, bind_app, bind_singleton.
    rewrite !length_app, !length_hex_row by lia.
    rewrite !Nat2Z.inj_add, IH by lia. nia.
Qed.

Lemma length_hex_cells n :
  0 ≤ n → length (hex_cells n) = Z.to_nat (3 * n * n + 3 * n + 1).
Proof.
  intros Hn. unfold hex_cells, range.
  pose proof (length_hex_rows n (Z.to_nat n)) as H.
  rewrite Z2Nat.id in H by done.
  replace (n + 1 - - n) with (2 * n + 1) by lia.
  apply Nat2Z.inj. etrans; [apply H; lia|lia].
Qed.

Lemma dict_len_wf d : wf_dict d → dict_len d = length (keys d).
Proof.
  intros [Hnd Hk]. unfold dict_len.
  rewrite <- size_dom, <- (size_list_to_set (C := gset coord)) by done.
  f_equal. apply set_eq. intros c.
  rewrite elem_of_dom, elem_of_list_to_set. by rewrite Hk.
Qed.

(** ** Runs *)

Lemma wf_diffusion L L' :
  wf_dict (lattice L) → diffusion L = Ok L' → wf_dict (lattice L').
Proof.
  intros Hwf E. destruct (diffusion_Ok _ _ Hwf E) as [_ ->].
  by apply wf_step_all.
Qed.

Lemma wf_steps k : ∀ L L',
  wf_dict (lattice L) → steps k L = Ok L' → wf_dict (lattice L').
Proof.
  induction k as [|k IH]; intros L L' Hwf E.
  - by injection E as <-.
  - simpl in E. apply bind_Ok in E as (L1 & E1 & E2).
    eapply IH; [|done]. by eapply wf_diffusion.
Qed.

(** The cell after a completed step, in terms of the lattice before it. *)
Lemma step_cell_eq L c h :
  let m := np_mean (us_of L (get_neighbours L c)) in
  let r := classified L c h in
  let u2 := if r then of_Z 0 else state h in
  let v2 := if r then state h else of_Z 0 in
  let flag := receptive h || r in
  step_cell L c h =
  mkHexagon (nadd u2 (nmul (ndiv (alpha L) (of_Z 2)) (nsub m u2)))
            (if flag then nadd v2 (gamma L) else v2)
            (nadd (nadd u2 (nmul (ndiv (alpha L) (of_Z 2)) (nsub m u2)))
                  (if flag then nadd v2 (gamma L) else v2))
            m flag.
Proof.
  unfold step_cell, g3, g2, g1, relax.
  assert (classified L c (set_mean_u (np_mean (us_of L (get_neighbours L c))) h)
          = classified L c h) as -> by reflexivity.
  destruct h as [hu hv hs hm hr]. simpl.
  by destruct (classified L c _), hr.
Qed.

(** The same, in terms of the two helpers of the source evaluated on the
    lattice before the step. *)
Lemma step_cell_fields L c h :
  at_ L c = Some h →
  ∃ m r, umean_neighbours L c = Ok m ∧ if_receptive L c = Ok r ∧
    let u2 := if r then of_Z 0 else state h in
    let v2 := if r then state h else of_Z 0 in
    let flag := receptive h || r in
    step_cell L c h =
    mkHexagon (nadd u2 (nmul (ndiv (alpha L) (of_Z 2)) (nsub m u2)))
              (if flag then nadd v2 (gamma L) else v2)
              (nadd (nadd u2 (nmul (ndiv (alpha L) (of_Z 2)) (nsub m u2)))
                    (if flag then nadd v2 (gamma L) else v2))
              m flag.
Proof.
  intros Eh. exists (np_mean (us_of L (get_neighbours L c))), (classified L c h).
  split; [apply umean_neighbours_eq|]. split; [by apply if_receptive_eq|].
  apply step_cell_eq.
Qed.



(** C5. For every size [n >= 0] the constructor creates exactly
    [3n^2 + 3n + 1] cells; the centre cell (0,0) has [state = v = 1] and
    [u = 0]; every other cell has [state = u = beta] and [v = 0]. *)
Theorem construction_cells (n : Z) (a b g : num) :
  0 ≤ n →
  let L := CrystalLattice_init n a b g in
  Z.of_nat (dict_len (lattice L)) = 3 * n ^ 2 + 3 * n + 1 ∧
  (∃ h, cell L (0, 0) = Ok h ∧
        state h = of_Z 1 ∧ v h = of_Z 1 ∧ u h = of_Z 0) ∧
  (∀ c h, c ≠ (0, 0) → cell L c = Ok h →
          state h = b ∧ u h = b ∧ v h = of_Z 0).
Proof.
  intros Hn L. subst L.
  destruct (init_spec n a b g) as (_ & _ & _ & _ & Ek & Eat).
  split; [|split].
  - rewrite (dict_len_wf _ (wf_init n a b g)), Ek.
    rewrite length_hex_cells by done. lia.
  - exists seed. split; [|done]. apply cell_Some. rewrite Eat.
    rewrite decide_True; [done|]. unfold in_hex. simpl. lia.
  - intros [q r] h Hc Eh. apply cell_Ok in Eh. rewrite Eat in Eh.
    case_decide; [|done]. injection Eh as <-. unfold new_cell. simpl.
    destruct (decide (r = 0)) as [->|Hr].
    + rewrite (bool_decide_eq_true_2 (q ≠ 0)) by congruence.
      by rewrite orb_true_r.
    + by rewrite (bool_decide_eq_true_2 (r ≠ 0)).
Qed.

Lemma construction_cells_witness :
  0 ≤ 2 ∧
  Z.of_nat (dict_len (lattice (CrystalLattice_init 2 (Fin 1) (Fin (3 # 10))
                                                   (Fin (1 # 1000))))) = 19.
Proof.
  split; [lia|].
  apply (construction_cells 2 (Fin 1) (Fin (3 # 10)) (Fin (1 # 1000))). lia.
Defined.

(** C10. The receptive flag only ever goes from False to True: every cell
    is created with the flag False; a completed step leaves the flag True
    where it was True and sets it where [if_receptive] answers True; hence a
    flag that is True stays True after any number of further steps. *)
Theorem receptive_flag_monotone :
  (∀ n a b g c h,
     cell (CrystalLattice_init n a b g) c = Ok h → receptive h = false) ∧
  (∀ L L' c h,
     wf_dict (lattice L) → diffusion L = Ok L' → cell L c = Ok h →
     ∃ r h', if_receptive L c = Ok r ∧ cell L' c = Ok h' ∧
             receptive h' = receptive h || r) ∧
  (∀ k L L' c h,
     wf_dict (lattice L) → steps k L = Ok L' → cell L c = Ok h →
     receptive h = true →
     ∃ h', cell L' c = Ok h' ∧ receptive h' = true).
Proof.
  assert (∀ L L' c h,
     wf_dict (lattice L) → diffusion L = Ok L' → cell L c = Ok h →
     ∃ r h', if_receptive L c = Ok r ∧ cell L' c = Ok h' ∧
             receptive h' = receptive h || r) as Hstep.
  { intros L L' c h Hwf E Eh. apply cell_Ok in Eh.
    destruct (diffusion_Ok _ _ Hwf E) as [_ ->].
    destruct (step_cell_fields L c h Eh) as (m & r & _ & Er & Ecell).
    exists r, (step_cell L c h). split; [done|]. split.
    - apply cell_Some. rewrite (at_step_all _ _ Hwf), Eh. done.
    - simpl in Ecell. by rewrite Ecell. }
  split; [|split; [exact Hstep|]].
  - intros n a b g c h Eh. apply cell_Ok in Eh.
    destruct (init_spec n a b g) as (_ & _ & _ & _ & _ & Eat).
    rewrite Eat in Eh. case_decide; [|done]. injection Eh as <-.
    unfold new_cell. by destruct (_ || _).
  - induction k as [|k IH]; intros L L' c h Hwf E Eh Hr.
    + injection E as <-. eauto.
    + simpl in E. apply bind_Ok in E as (L1 & E1 & E2).
      destruct (Hstep _ _ _ _ Hwf E1 Eh) as (r & h1 & _ & Eh1 & Hr1).
      apply (IH L1 L' c h1); [by eapply wf_diffusion|done|done|].
      by rewrite Hr1, Hr.
Qed.

Lemma receptive_flag_monotone_witness :
  ∃ L1 L3 h1 h3,
    diffusion demo = Ok L1 ∧ steps 2 L1 = Ok L3 ∧
    cell L1 (1, 0) = Ok h1 ∧ receptive h1 = true ∧
    cell L3 (1, 0) = Ok h3 ∧ receptive h3 = true.
Proof.
  assert (wf_dict (lattice (step_all demo))) as Hwf
    by apply wf_step_all, wf_init.
  destruct (proj2 (proj2 receptive_flag_monotone) 2%nat (step_all demo)
              (step_all (step_all (step_all demo))) (1, 0)
              (step_cell demo (1, 0) (vapour (Fin (3 # 10)))) Hwf)
    as (h3 & E3 & Hr3); [vm_compute; reflexivity..|].
  exists (step_all demo), (step_all (step_all (step_all demo))),
         (step_cell demo (1, 0) (vapour (Fin (3 # 10)))), h3.
  repeat split; try done; vm_compute; reflexivity.
Defined.

(** C9. The step is a function of the lattice, and the order in which each
    of its three loops visits the cells does not matter: with any three
    permutations of the key list the result is that of [diffusion]; two
    lattices built from the same parameters and stepped the same number of
    times are equal, cell by cell and field by field. *)
Theorem step_order_independent :
  (∀ L o1 o2 o3,
     wf_dict (lattice L) →
     o1 ≡ₚ keys (lattice L) → o2 ≡ₚ keys (lattice L) →
     o3 ≡ₚ keys (lattice L) →
     diffusion_by o1 o2 o3 L = diffusion L) ∧
  (∀ n a b g k L1 L2,
     L1 = CrystalLattice_init n a b g → L2 = CrystalLattice_init n a b g →
     steps k L1 = steps k L2).
Proof.
  split.
  - intros L o1 o2 o3. apply diffusion_by_unfold.
  - by intros n a b g k L1 L2 -> ->.
Qed.

Lemma step_order_independent_witness :
  diffusion_by (reverse (keys (lattice demo)))
               (drop 3 (keys (lattice demo)) ++ take 3 (keys (lattice demo)))
               (keys (lattice demo)) demo
  = diffusion demo.
Proof.
  apply (proj1 step_order_independent).
  - apply wf_init.
  - apply reverse_Permutation.
  - rewrite Permutation_app_comm. by rewrite take_drop.
  - done.
Defined.




(** ** The branch ends *)

Lemma branch_ends_list n : branch_ends n = list_to_set (branch_end_list n).
Proof.
  unfold branch_ends, branch_end_list. simpl.
  by rewrite (right_id_L ∅ (∪)), !(assoc_L (∪)).
Qed.

(** Except for size 1 the six tuples are distinct and the set has six
    elements. *)
Lemma branch_ends_elements n :
  n ≠ 1 → elements (branch_ends n) ≡ₚ branch_end_list n.
Proof.
  intros Hn. rewrite branch_ends_list. apply elements_list_to_set.
  unfold branch_end_list.
  repeat (apply NoDup_cons_2;
          [rewrite ?not_elem_of_cons; repeat split;
           try apply not_elem_of_nil; intros [=]; lia|]).
  apply NoDup_nil_2.
Qed.

Lemma frozen_count_perm L cs cs' :
  cs ≡ₚ cs' → frozen_count L cs = frozen_count L cs'.
Proof. intros P. unfold frozen_count. by rewrite P. Qed.

Lemma frozen_count_all L cs :
  frozen_count L cs = length cs ↔ ∀ c, c ∈ cs → frozen_at L c = true.
Proof.
  unfold frozen_count. induction cs as [|c cs IH].
  - split; [intros _ c Hc; by apply elem_of_nil in Hc|done].
  - rewrite filter_cons. pose proof (length_filter (λ c, frozen_at L c = true) cs).
    case_decide as Hc; simpl.
    + split.
      * intros E c0 [->|Hc0]%elem_of_cons; [done|]. apply IH; [lia|done].
      * intros Hall. f_equal. apply IH. intros; apply Hall; by right.
    + split; [lia|]. intros Hall. destruct Hc. apply Hall. by left.
Qed.

(** For every size but 1 the branch-tip test holds exactly when all six
    tuples are frozen. *)
Lemma branch_tips_all_six L :
  size_ L ≠ 1 →
  frozen_count L (elements (branch_ends (size_ L))) = 6%nat ↔
  ∀ c, c ∈ branch_end_list (size_ L) → frozen_at L c = true.
Proof.
  intros Hn. rewrite (frozen_count_perm _ _ _ (branch_ends_elements _ Hn)).
  apply (frozen_count_all L (branch_end_list (size_ L))).
Qed.

(** C6. Fails on the code at size 1: the six tuples of the set literal are
    all (0,0), the set has one element, so the count of frozen ends is at
    most 1 and never 6.  On [CrystalLattice(1, 1, 0.3, 0.001)] all six
    coordinates have [state >= 1], yet the test answers False. *)
Theorem branch_tips_size_one :
  branch_end_list (size_ demo) = [(0, 0); (0, 0); (0, 0); (0, 0); (0, 0); (0, 0)] ∧
  (∀ c, c ∈ branch_end_list (size_ demo) →
        ∃ h, cell demo c = Ok h ∧ ge1 (state h) = true) ∧
  elements (branch_ends (size_ demo)) = [(0, 0)] ∧
  count_frozen demo (elements (branch_ends (size_ demo))) 0 = Ok 1%nat ∧
  all_ends_frozen demo = Ok false.
Proof.
  assert (branch_end_list (size_ demo)
          = [(0, 0); (0, 0); (0, 0); (0, 0); (0, 0); (0, 0)]) as E
    by (vm_compute; reflexivity).
  split; [exact E|]. split.
  - intros c Hc. exists seed. rewrite E in Hc.
    repeat (apply elem_of_cons in Hc as [->|Hc];
            [split; vm_compute; reflexivity|]).
    apply elem_of_nil in Hc. destruct Hc.
  - repeat split; vm_compute; reflexivity.
Qed.

(** C1. Fails on the code: [frozen_list] is a fresh list [[0]] on every
    call, so the test [frozen_list[-1] == frozen_list[-2]] compares the
    current count with 0, not with the count of the call before.  On
    [CrystalLattice(2, 1, 0.3, 0.001)] the first call and the call after one
    step both count one frozen cell, and the second call answers False. *)
Theorem stall_test_ignores_history :
  all_ends_frozen demo2 = Ok false ∧
  count_frozen demo2 (keys (lattice demo2)) 0 = Ok 1%nat ∧
  diffusion demo2 = Ok (step_all demo2) ∧
  count_frozen (step_all demo2) (keys (lattice (step_all demo2))) 0 = Ok 1%nat ∧
  all_ends_frozen (step_all demo2) = Ok false ∧
  steps 2 demo2 = Ok (step_all (step_all demo2)).
Proof. repeat split; vm_compute; reflexivity. Qed.

(** What the stall test is: on every call, whatever came before, it holds
    exactly when no cell is frozen. *)
Lemma stall_test_is_zero_test L :
  wf_dict (lattice L) →
  (∀ c, c ∈ elements (branch_ends (size_ L)) → is_Some (at_ L c)) →
  all_ends_frozen L = Ok false ↔
  frozen_count L (elements (branch_ends (size_ L))) ≠ 6%nat ∧
  frozen_count L (keys (lattice L)) ≠ 0%nat.
Proof.
  intros [_ Hk] He. rewrite (all_ends_frozen_eq L He) by (intros; by apply Hk).
  unfold stop_condition.
  do 2 case_bool_decide; simpl; split; try done; tauto.
Qed.





(** ** The domain of the lattice and the neighbourhoods *)

Lemma hex_domain_init n a b g : hex_domain n (CrystalLattice_init n a b g).
Proof.
  intros c. destruct (init_spec n a b g) as (_ & _ & _ & _ & _ & Eat).
  rewrite Eat. case_decide; split; try done; eauto.
Qed.

Lemma hex_domain_step_all n L : hex_domain n L → hex_domain n (step_all L).
Proof.
  intros H c. unfold step_all. rewrite is_Some_update_all. apply H.
Qed.

Lemma get_neighbours_step_all L c :
  get_neighbours (step_all L) c = get_neighbours L c.
Proof.
  apply get_neighbours_ext. intros c0. unfold step_all.
  apply is_Some_update_all.
Qed.

Lemma elem_of_get_neighbours L q r qr :
  qr ∈ get_neighbours L (q, r) ↔
  qr ∈ [(q, r - 1); (q + 1, r - 1); (q + 1, r);
        (q, r + 1); (q - 1, r + 1); (q - 1, r)] ∧ is_Some (at_ L qr).
Proof.
  unfold get_neighbours. rewrite list_elem_of_filter. unfold dict_in.
  rewrite bool_decide_eq_true. tauto.
Qed.

(** In a hexagon of radius at least 1 every cell has a neighbour. *)
Lemma neighbours_nonempty n L c :
  1 ≤ n → hex_domain n L → in_hex n c → get_neighbours L c ≠ [].
Proof.
  intros Hn Hd. destruct c as [q r]. intros Hc. unfold in_hex in Hc.
  simpl in Hc.
  assert (∃ qr, qr ∈ get_neighbours L (q, r)) as [qr Hqr].
  { destruct (decide (0 < q)); [|destruct (decide (q < 0));
      [|destruct (decide (0 < r)); [|destruct (decide (r < 0))]]].
    - exists (q - 1, r). apply elem_of_get_neighbours. split.
      + do 5 right. by left.
      + apply Hd. unfold in_hex. simpl. lia.
    - exists (q + 1, r). apply elem_of_get_neighbours. split.
      + do 2 right. by left.
      + apply Hd. unfold in_hex. simpl. lia.
    - exists (q, r - 1). apply elem_of_get_neighbours. split.
      + by left.
      + apply Hd. unfold in_hex. simpl. lia.
    - exists (q, r + 1). apply elem_of_get_neighbours. split.
      + do 3 right. by left.
      + apply Hd. unfold in_hex. simpl. lia.
    - exists (q, r + 1). apply elem_of_get_neighbours. split.
      + do 3 right. by left.
      + apply Hd. unfold in_hex. simpl. lia. }
  intros E. rewrite E in Hqr. by apply elem_of_nil in Hqr.
Qed.


(** ** The mean of a list of numbers *)

Lemma np_mean_nil : np_mean [] = NaN.
Proof. reflexivity. Qed.

Lemma length_divisor_nonzero {A} (l : list A) :
  l ≠ [] → Qeq_bool (inject_Z (Z.of_nat (length l))) 0 = false.
Proof.
  intros Hl. destruct (Qeq_bool _ _) eqn:E; [|done].
  apply Qeq_bool_eq in E. unfold Qeq in E. simpl in E.
  destruct l; [done|]. simpl in E. lia.
Qed.



Lemma nsum_nonneg l : Forall nonneg l → nonneg (nsum l).
Proof.
  induction 1 as [|x l Hx _ IH]; [done|].
  unfold nsum in *. simpl. destruct x as [a|]; [|done].
  destruct (foldr nadd (of_Z 0) l) as [s|]; [|done].
  simpl in *. rewrite Qred_correct. lra.
Qed.

Lemma np_mean_nonneg l : l ≠ [] → Forall nonneg l → nonneg (np_mean l).
Proof.
  intros Hl Hf. pose proof (nsum_nonneg l Hf) as Hs.
  unfold np_mean, of_Z, ndiv. destruct (nsum l) as [s|]; [|done].
  rewrite (length_divisor_nonzero l Hl). simpl in *. rewrite Qred_correct.
  apply Qle_shift_div_l; [|lra].
  unfold Qlt. simpl. destruct l; [done|]. simpl. lia.
Qed.

Lemma us_of_present L cs :
  (∀ qr, qr ∈ cs → is_Some (at_ L qr)) →
  length (us_of L cs) = length cs ∧
  ∀ x, x ∈ us_of L cs → ∃ qr h, qr ∈ cs ∧ at_ L qr = Some h ∧ x = u h.
Proof.
  induction cs as [|qr cs IH]; intros Hin.
  - split; [done|]. intros x Hx. by apply elem_of_nil in Hx.
  - destruct (Hin qr) as [h Eh]; [by left|].
    destruct IH as [IH1 IH2]; [intros; apply Hin; by right|].
    unfold us_of in *. cbn [omap list_omap]. rewrite Eh. simpl. split.
    + by rewrite IH1.
    + intros x [->|Hx]%elem_of_cons.
      * exists qr, h. split; [by left|done].
      * destruct (IH2 x Hx) as (qr' & h' & ? & ? & ?).
        exists qr', h'. split; [by right|done].
Qed.

Lemma us_of_neighbours L c :
  (get_neighbours L c ≠ [] → us_of L (get_neighbours L c) ≠ []) ∧
  ∀ x, x ∈ us_of L (get_neighbours L c) →
       ∃ qr h, qr ∈ get_neighbours L c ∧ at_ L qr = Some h ∧ x = u h.
Proof.
  destruct (us_of_present L (get_neighbours L c)) as [Hlen Hel];
    [apply get_neighbours_in|].
  split; [|done]. intros Hne E. rewrite E in Hlen.
  by destruct (get_neighbours L c).
Qed.




(** ** Arithmetic of one cell update *)

Lemma ge1_mono x y : ge1 x = true → nle x y → ge1 y = true.
Proof.
  destruct x as [a|], y as [b|]; simpl; try done.
  rewrite !Qle_bool_iff. intros. by apply Qle_trans with a.
Qed.

(** A receptive cell: [u] restarts from 0, [v] from the state. *)
Lemma receptive_update a g s m :
  (0 <= a)%Q → (a <= 2)%Q → (0 <= g)%Q → (0 <= s)%Q → (0 <= m)%Q →
  let u' := nadd (of_Z 0) (nmul (ndiv (Fin a) (of_Z 2)) (nsub (Fin m) (of_Z 0))) in
  let v' := nadd (Fin s) (Fin g) in
  nonneg u' ∧ nonneg (nadd u' v') ∧ nle (Fin s) (nadd u' v').
Proof.
  intros Ha1 Ha2 Hg Hs Hm. simpl. rewrite !Qred_correct.
  assert (0 <= a * m)%Q by (by apply Qmult_le_0_compat).
  repeat split; unfold Qdiv; change (/ inject_Z 2)%Q with (1 # 2)%Q;
    change (inject_Z 0) with 0%Q; lra.
Qed.

(** A cell that is not receptive and carries no flag: [u] restarts from the
    state, [v] from 0. *)
Lemma mobile_update a s m :
  (0 <= a)%Q → (a <= 2)%Q → (0 <= s)%Q → (0 <= m)%Q →
  let u' := nadd (Fin s) (nmul (ndiv (Fin a) (of_Z 2)) (nsub (Fin m) (Fin s))) in
  nonneg u' ∧ nonneg (nadd u' (of_Z 0)).
Proof.
  intros Ha1 Ha2 Hs Hm. simpl. rewrite !Qred_correct.
  assert (0 <= a * m)%Q by (by apply Qmult_le_0_compat).
  assert (0 <= (2 - a) * s)%Q by (apply Qmult_le_0_compat; lra).
  repeat split; unfold Qdiv; change (/ inject_Z 2)%Q with (1 # 2)%Q;
    change (inject_Z 0) with 0%Q; lra.
Qed.

(** ** The run invariant *)

Lemma mean_nonneg n L c :
  1 ≤ n → run_invariant n L → in_hex n c →
  nonneg (np_mean (us_of L (get_neighbours L c))).
Proof.
  intros Hn (_ & _ & Hd & _ & Hok) Hc.
  destruct (us_of_neighbours L c) as [Hne Hel].
  apply np_mean_nonneg.
  - apply Hne. by apply (neighbours_nonempty n).
  - apply Forall_forall. intros x Hx.
    destruct (Hel x Hx) as (qr & h & _ & Eh & ->). by apply (Hok qr h Eh).
Qed.

(** One step on one cell, under the invariant. *)
Lemma step_cell_ok n L c h :
  1 ≤ n → run_invariant n L → at_ L c = Some h →
  nonneg (u (step_cell L c h)) ∧ nonneg (state (step_cell L c h)) ∧
  receptive (step_cell L c h) = classified L c h ∧
  (classified L c h = true → nle (state h) (state (step_cell L c h))).
Proof.
  intros Hn Hinv Eh.
  assert (in_hex n c) as Hc.
  { destruct Hinv as (_ & _ & Hd & _). apply Hd. eauto. }
  pose proof (mean_nonneg n L c Hn Hinv Hc) as Hm.
  destruct Hinv as (_ & _ & _ & (a & g & Ea & Eg & Ha1 & Ha2 & Hg) & Hok).
  destruct (Hok c h Eh) as (Hu & Hs & Hflag).
  pose proof (step_cell_eq L c h) as E. simpl in E. rewrite E. clear E.
  rewrite Ea, Eg.
  destruct (np_mean (us_of L (get_neighbours L c))) as [m|]; [|done].
  destruct (state h) as [s|] eqn:Es; [|done]. simpl in Hm, Hs.
  destruct (classified L c h) eqn:Er.
  - rewrite orb_true_r.
    destruct (receptive_update a g s m Ha1 Ha2 Hg Hs Hm) as (H1 & H2 & H3).
    cbn [u state receptive]. repeat split; done.
  - assert (receptive h = false) as ->.
    { destruct (receptive h); [|done]. by specialize (Hflag eq_refl). }
    destruct (mobile_update a s m Ha1 Ha2 Hs Hm) as (H1 & H2).
    cbn [u state receptive orb]. repeat split; done.
Qed.

(** Frozen cells stay frozen. *)
Lemma frozen_stays n L c :
  1 ≤ n → run_invariant n L →
  frozen_at L c = true → frozen_at (step_all L) c = true.
Proof.
  intros Hn Hinv. unfold frozen_at.
  rewrite (at_step_all L c) by apply Hinv.
  destruct (at_ L c) as [h|] eqn:Eh; [simpl|done]. intros Hf.
  destruct (step_cell_ok n L c h Hn Hinv Eh) as (_ & _ & _ & Hgrow).
  apply (ge1_mono (state h)); [done|]. apply Hgrow.
  unfold classified. by rewrite Hf.
Qed.

Lemma classified_stays n L c h :
  1 ≤ n → run_invariant n L → at_ L c = Some h →
  classified L c h = true →
  classified (step_all L) c (step_cell L c h) = true.
Proof.
  intros Hn Hinv Eh Hcl.
  pose proof (frozen_stays n L) as Hfs.
  unfold classified in *. rewrite get_neighbours_step_all.
  apply orb_true_iff in Hcl as [Hown|Hnb]; apply orb_true_iff.
  - left. specialize (Hfs c Hn Hinv). unfold frozen_at in Hfs.
    rewrite (at_step_all L c), Eh in Hfs by apply Hinv. by apply Hfs.
  - right. apply existsb_exists in Hnb as (qr & Hqr & Hf).
    apply existsb_exists. exists qr. split; [done|]. by apply Hfs.
Qed.

Lemma run_invariant_init n a b g :
  (0 <= a)%Q → (a <= 2)%Q → (0 <= b)%Q → (0 <= g)%Q →
  run_invariant n (CrystalLattice_init n (Fin a) (Fin b) (Fin g)).
Proof.
  intros Ha1 Ha2 Hb Hg.
  destruct (init_spec n (Fin a) (Fin b) (Fin g))
    as (Es & Ea & Eb & Eg & Ek & Eat).
  split; [done|]. split; [apply wf_init|]. split; [apply hex_domain_init|].
  split; [by exists a, g|].
  intros c h Eh. rewrite Eat in Eh. case_decide; [|done]. injection Eh as <-.
  unfold new_cell, cell_ok. destruct (_ || _); simpl; repeat split; try done.
Qed.

Lemma run_invariant_step n L :
  1 ≤ n → run_invariant n L → run_invariant n (step_all L).
Proof.
  intros Hn Hinv. pose proof Hinv as (Es & Hwf & Hd & Hph & Hok).
  split; [done|]. split; [by apply wf_step_all|].
  split; [by apply hex_domain_step_all|]. split; [done|].
  intros c h' Eh'. rewrite (at_step_all L c Hwf) in Eh'.
  destruct (at_ L c) as [h|] eqn:Eh; [|done]. injection Eh' as <-.
  destruct (step_cell_ok n L c h Hn Hinv Eh) as (Hu & Hs & Hr & _).
  split; [done|]. split; [done|]. rewrite Hr.
  by apply (classified_stays n).
Qed.

Lemma run_invariant_steps n k : ∀ L L',
  1 ≤ n → run_invariant n L → steps k L = Ok L' → run_invariant n L'.
Proof.
  induction k as [|k IH]; intros L L' Hn Hinv E.
  - by injection E as <-.
  - simpl in E. apply bind_Ok in E as (L1 & E1 & E2).
    destruct (diffusion_Ok L L1) as [_ ->]; [apply Hinv|done|].
    apply (IH (step_all L)); [done| |done]. by apply run_invariant_step.
Qed.

(** A step that completes needs the branch ends in the lattice, hence a
    radius of at least 1. *)
Lemma diffusion_size n L L' :
  size_ L = n → wf_dict (lattice L) → hex_domain n L →
  diffusion L = Ok L' → 1 ≤ n.
Proof.
  intros Es Hwf Hd E. destruct (diffusion_Ok _ _ Hwf E) as [Ef _].
  unfold all_ends_frozen in Ef.
  pose proof (count_frozen_present _ _ _ _ _ Ef (0, n - 1)) as Hp.
  assert (in_hex n (0, n - 1)) as Hin.
  { apply Hd, Hp. rewrite Es. apply elem_of_elements.
    rewrite branch_ends_list. apply elem_of_list_to_set.
    do 2 right. by left. }
  unfold in_hex in Hin. simpl in Hin. lia.
Qed.

Lemma steps_S_inv k L L' :
  steps (S k) L = Ok L' → ∃ L1, diffusion L = Ok L1.
Proof. simpl. intros (L1 & E & _)%bind_Ok. eauto. Qed.

Lemma steps_app j : ∀ i L Lj L',
  steps j L = Ok Lj → steps i Lj = Ok L' → steps (j + i) L = Ok L'.
Proof.
  induction j as [|j IH]; intros i L Lj L' Ej Ei.
  - by injection Ej as ->.
  - simpl in *. apply bind_Ok in Ej as (L1 & E1 & E2). rewrite E1. simpl.
    by apply (IH i L1 Lj).
Qed.




(** X17. In a run with physical parameters the flag and the classification
    of the current step agree, so [gamma] goes exactly to the cells
    classified receptive in the step. *)
Lemma step_rule_physical (n : Z) (a b g : Q) (k : nat)
    (L L' : CrystalLattice) (c : coord) (h h' : Hexagon) :
  (0 <= a)%Q → (a <= 2)%Q → (0 <= g)%Q → (0 <= b)%Q →
  steps k (CrystalLattice_init n (Fin a) (Fin b) (Fin g)) = Ok L →
  diffusion L = Ok L' → cell L c = Ok h → cell L' c = Ok h' →
  ∃ r, if_receptive L c = Ok r ∧ receptive h' = r ∧
       v h' = if r then nadd (state h) (gamma L) else of_Z 0.
Proof.
  intros Ha1 Ha2 Hg Hb Ek E Eh Eh'.
  pose proof (run_invariant_init n a b g Ha1 Ha2 Hb Hg) as Hinit.
  assert (1 ≤ n) as Hn.
  { destruct k as [|k].
    - injection Ek as <-. destruct Hinit as (Es & Hwf & Hd & _).
      by eapply diffusion_size.
    - apply steps_S_inv in Ek as [L1 E1]. destruct Hinit as (Es & Hwf & Hd & _).
      by eapply diffusion_size. }
  pose proof (run_invariant_steps n k _ L Hn Hinit Ek) as Hinv.
  destruct (diffusion_Ok L L') as [_ ->]; [apply Hinv|done|].
  apply cell_Ok in Eh, Eh'.
  rewrite (at_step_all L c), Eh in Eh' by apply Hinv. injection Eh' as <-.
  destruct (step_cell_ok n L c h Hn Hinv Eh) as (_ & _ & Hflag & _).
  exists (classified L c h). split; [by apply if_receptive_eq|].
  split; [done|]. revert Hflag.
  pose proof (step_cell_eq L c h) as E'. simpl in E'. rewrite E'. simpl.
  intros ->. by destruct (classified L c h).
Qed.

(** * Further properties of the code *)

(** ** Neighbourhoods *)

(** X1. [get_neighbours] returns at most six coordinates, without
    repetition; each of them is a cell of the lattice and none is the
    coordinate asked about. *)
Theorem get_neighbours_sound (L : CrystalLattice) (c : coord) :
  NoDup (get_neighbours L c) ∧ (length (get_neighbours L c) ≤ 6)%nat ∧
  (c ∉ get_neighbours L c) ∧
  ∀ qr, qr ∈ get_neighbours L c → ∃ h, cell L qr = Ok h.
Proof.
  destruct c as [q r]. split; [|split; [|split]].
  - unfold get_neighbours. apply NoDup_filter.
    repeat (apply NoDup_cons_2;
            [rewrite ?not_elem_of_cons; repeat split;
             try apply not_elem_of_nil; intros [=]; lia|]).
    apply NoDup_nil_2.
  - unfold get_neighbours. etrans; [apply length_filter|done].
  - intros [Hin _]%elem_of_get_neighbours.
    repeat (apply elem_of_cons in Hin as [[=]|Hin]; [lia|]).
    by apply elem_of_nil in Hin.
  - intros qr [h Eh]%get_neighbours_in. exists h. by apply cell_Some.
Qed.

(** X2. Being a neighbour is symmetric between cells of the lattice. *)
Theorem get_neighbours_symmetric (L : CrystalLattice) (c1 c2 : coord) :
  is_Some (at_ L c1) → c2 ∈ get_neighbours L c1 → c1 ∈ get_neighbours L c2.
Proof.
  destruct c1 as [q1 r1], c2 as [q2 r2]. intros Hc1.
  rewrite !elem_of_get_neighbours. intros [Hin _]. split; [|done].
  repeat (apply elem_of_cons in Hin as [[= -> ->]|Hin];
          [rewrite !elem_of_cons;
           repeat (first [left; f_equal; lia|right]); fail|]).
  by apply elem_of_nil in Hin.
Qed.

Lemma get_neighbours_symmetric_witness :
  (0, 0) ∈ get_neighbours demo (1, 0).
Proof.
  apply (get_neighbours_symmetric demo (0, 0) (1, 0)).
  - apply hex_domain_init. unfold in_hex. simpl. lia.
  - apply elem_of_get_neighbours. split.
    + do 2 right. by left.
    + apply hex_domain_init. unfold in_hex. simpl. lia.
Defined.

Lemma dict_in_hex n L x :
  hex_domain n L → dict_in x (lattice L) = true ↔ in_hex n x.
Proof.
  intros Hd. unfold dict_in. rewrite bool_decide_eq_true. apply Hd.
Qed.

(** Splits on which of the six candidate neighbours are in the lattice and
    turns each case into inequalities; [E] relates membership to [in_hex]. *)
Ltac neighbour_cases E :=
  unfold get_neighbours; rewrite !filter_cons, filter_nil;
  unfold in_hex in *;
  repeat case_decide;
  repeat match goal with
         | H : dict_in _ _ = true |- _ => apply E in H; simpl in H
         | H : ¬ (dict_in _ _ = true) |- _ => rewrite E in H; simpl in H
         end;
  simpl in *.

(** X3. In a lattice that holds the hexagon of radius [n >= 1], every cell
    has between three and six neighbours, and it has six exactly when it
    lies in the hexagon of radius [n - 1]. *)
Theorem neighbour_count (n : Z) (L : CrystalLattice) (c : coord) :
  1 ≤ n → hex_domain n L → in_hex n c →
  (3 ≤ length (get_neighbours L c) ≤ 6)%nat ∧
  (length (get_neighbours L c) = 6%nat ↔ in_hex (n - 1) c).
Proof.
  intros Hn Hd. destruct c as [q r]. intros Hc.
  pose proof (λ x, dict_in_hex n L x Hd) as E. clear Hd.
  neighbour_cases E; lia.
Qed.

Lemma neighbour_count_witness :
  (3 ≤ length (get_neighbours demo2 (2, 0)%Z) ≤ 6)%nat ∧
  (length (get_neighbours demo2 (1, 0)) = 6%nat ↔ in_hex (2 - 1) (1, 0)).
Proof.
  split.
  - apply (neighbour_count 2 demo2 (2, 0)); [lia|apply hex_domain_init|].
    unfold in_hex. simpl. lia.
  - apply (neighbour_count 2 demo2 (1, 0)); [lia|apply hex_domain_init|].
    unfold in_hex. simpl. lia.
Defined.

(** ** Edge cells *)

Lemma is_edge_spec L c :
  is_edge L c = true ↔
  c.1 = size_ L ∨ c.1 = - size_ L ∨ c.2 = size_ L ∨ c.2 = - size_ L.
Proof.
  unfold is_edge.
  destruct (bool_decide (c.1 ∈ _)) eqn:E1; simpl.
  - apply bool_decide_eq_true in E1. rewrite !elem_of_cons, elem_of_nil in E1.
    split; [tauto|done].
  - apply bool_decide_eq_false in E1. rewrite !elem_of_cons, elem_of_nil in E1.
    destruct (bool_decide (c.2 ∈ _)) eqn:E2.
    + apply bool_decide_eq_true in E2. rewrite !elem_of_cons, elem_of_nil in E2.
      split; [tauto|done].
    + apply bool_decide_eq_false in E2.
      rewrite !elem_of_cons, elem_of_nil in E2. split; [done|tauto].
Qed.

(** X4. A cell of the lattice that [is_edge] accepts has at most four
    neighbours. *)
Theorem is_edge_few_neighbours (n : Z) (L : CrystalLattice) (c : coord) :
  1 ≤ n → size_ L = n → hex_domain n L → in_hex n c →
  is_edge L c = true → (length (get_neighbours L c) ≤ 4)%nat.
Proof.
  intros Hn Es Hd. destruct c as [q r]. intros Hc He.
  apply is_edge_spec in He. rewrite Es in He.
  pose proof (λ x, dict_in_hex n L x Hd) as E. clear Hd.
  neighbour_cases E; lia.
Qed.

Lemma is_edge_few_neighbours_witness :
  (length (get_neighbours demo2 (2, -1)%Z) ≤ 4)%nat.
Proof.
  apply (is_edge_few_neighbours 2 demo2 (2, -1));
    [lia|apply init_spec|apply hex_domain_init| |vm_compute; reflexivity].
  unfold in_hex. simpl. lia.
Defined.

(** X5. [is_edge] does not see two of the six sides of the hexagon: a cell
    with [|q + r| = size] and [|q|, |r| < size] lies on the boundary (it has
    four neighbours only) and [is_edge] answers False. *)
Theorem is_edge_misses_diagonal_sides (n : Z) (L : CrystalLattice) (c : coord) :
  size_ L = n → hex_domain n L →
  Z.abs (c.1 + c.2) = n → Z.abs c.1 < n → Z.abs c.2 < n →
  is_edge L c = false ∧ length (get_neighbours L c) = 4%nat.
Proof.
  intros Es Hd. destruct c as [q r]. intros H1 H2 H3.
  simpl in H1, H2, H3.
  assert (- n < q < n ∧ - n < r < n ∧ (q + r = n ∨ q + r = - n)) as Hc by lia.
  clear H1 H2 H3. split.
  - destruct (is_edge L (q, r)) eqn:He; [|done].
    apply is_edge_spec in He. simpl in He. lia.
  - pose proof (λ x, dict_in_hex n L x Hd) as E. clear Hd.
    neighbour_cases E; lia.
Qed.

Lemma is_edge_misses_diagonal_sides_witness :
  is_edge demo2 (1, 1) = false ∧ length (get_neighbours demo2 (1, 1)) = 4%nat.
Proof.
  apply (is_edge_misses_diagonal_sides 2 demo2 (1, 1));
    [apply init_spec|apply hex_domain_init|done..].
Defined.

(** ** The constructed lattice *)

(** X6. The constructor stores a cell at exactly the coordinates with
    [|q|, |r|, |q + r| <= size]; looking up any other coordinate raises
    KeyError; [keys()] lists each of those coordinates once. *)
Theorem construction_membership (n : Z) (a b g : num) (c : coord) :
  let L := CrystalLattice_init n a b g in
  (in_hex n c → ∃ h, cell L c = Ok h) ∧
  (¬ in_hex n c → cell L c = KeyError) ∧
  (c ∈ keys (lattice L) ↔ in_hex n c) ∧
  NoDup (keys (lattice L)).
Proof.
  intros L. subst L.
  destruct (init_spec n a b g) as (_ & _ & _ & _ & Ek & Eat).
  split; [|split; [|split]].
  - intros Hc. exists (new_cell b c). apply cell_Some. rewrite Eat.
    by rewrite decide_True.
  - intros Hc. unfold cell, dict_get.
    change (dict_lookup (lattice (CrystalLattice_init n a b g)) c)
      with (at_ (CrystalLattice_init n a b g) c).
    rewrite Eat. by rewrite decide_False.
  - rewrite Ek. apply elem_of_hex_cells.
  - rewrite Ek. apply NoDup_hex_cells.
Qed.

Lemma construction_membership_witness :
  (∃ h, cell demo2 (1, -2) = Ok h) ∧ cell demo2 (2, 1) = KeyError.
Proof.
  split.
  - apply (construction_membership 2 (Fin 1) (Fin (3 # 10)) (Fin (1 # 1000))
             (1, -2)).
    unfold in_hex. simpl. lia.
  - apply (construction_membership 2 (Fin 1) (Fin (3 # 10)) (Fin (1 # 1000))
             (2, 1)).
    unfold in_hex. simpl. lia.
Defined.

(** X7. With a negative size the two [range]s are empty and the
    constructor leaves the lattice empty. *)
Theorem construction_negative_size (n : Z) (a b g : num) :
  n < 0 →
  keys (lattice (CrystalLattice_init n a b g)) = [] ∧
  dict_len (lattice (CrystalLattice_init n a b g)) = 0%nat.
Proof.
  intros Hn.
  destruct (init_spec n a b g) as (_ & _ & _ & _ & Ek & _).
  assert (hex_cells n = []) as E0.
  { destruct (hex_cells n) as [|c l] eqn:E; [done|exfalso].
    assert (in_hex n c) as Hc by (apply elem_of_hex_cells; rewrite E; by left).
    unfold in_hex in Hc. lia. }
  rewrite (dict_len_wf _ (wf_init n a b g)), Ek, E0. done.
Qed.

Lemma construction_negative_size_witness :
  dict_len (lattice (CrystalLattice_init (-3) (Fin 1) (Fin (3 # 10))
                                         (Fin (1 # 1000)))) = 0%nat.
Proof.
  apply (construction_negative_size (-3) (Fin 1) (Fin (3 # 10))
           (Fin (1 # 1000))).
  lia.
Defined.

(** ** Exceptions of the termination test and of the step *)

Lemma count_frozen_missing L cs : ∀ k c,
  c ∈ cs → at_ L c = None → count_frozen L cs k = KeyError.
Proof.
  induction cs as [|c0 cs IH]; intros k c Hc Ec.
  - by apply elem_of_nil in Hc.
  - simpl. unfold cell, dict_get.
    change (dict_lookup (lattice L) c0) with (at_ L c0).
    destruct (at_ L c0) as [h0|] eqn:E0; [simpl|done].
    apply elem_of_cons in Hc as [->|Hc]; [congruence|]. by apply (IH _ c).
Qed.

Lemma branch_end_in_set n c :
  c ∈ branch_end_list n ↔ c ∈ elements (branch_ends n).
Proof.
  by rewrite elem_of_elements, branch_ends_list, elem_of_list_to_set.
Qed.

Lemma branch_ends_in_hex n c :
  1 ≤ n → c ∈ elements (branch_ends n) → in_hex n c.
Proof.
  intros Hn Hc. apply branch_end_in_set in Hc. unfold branch_end_list in Hc.
  repeat (apply elem_of_cons in Hc as [->|Hc];
          [unfold in_hex; simpl; lia|]).
  by apply elem_of_nil in Hc.
Qed.

(** X8. On a lattice of size 0 or less the branch ends are not cells of
    the lattice: [all_ends_frozen] raises KeyError, and so does [diffusion],
    before any cell is touched. *)
Theorem no_step_without_branch_ends (n : Z) (L : CrystalLattice) :
  n ≤ 0 → size_ L = n → hex_domain n L →
  all_ends_frozen L = KeyError ∧ diffusion L = KeyError.
Proof.
  intros Hn Es Hd.
  assert (all_ends_frozen L = KeyError) as E.
  { unfold all_ends_frozen.
    rewrite (count_frozen_missing L (elements (branch_ends (size_ L))) 0%nat
               (0, n - 1)); [reflexivity| |].
    - rewrite Es. apply branch_end_in_set. do 2 right. by left.
    - destruct (at_ L (0, n - 1)) as [h|] eqn:Eh; [exfalso|done].
      assert (in_hex n (0, n - 1)) as Hc by (apply Hd; eauto).
      unfold in_hex in Hc. simpl in Hc. lia. }
  split; [done|]. unfold diffusion. by rewrite E.
Qed.

Lemma no_step_without_branch_ends_witness :
  all_ends_frozen demo0 = KeyError ∧ diffusion demo0 = KeyError.
Proof.
  apply (no_step_without_branch_ends 0 demo0);
    [lia|apply init_spec|apply hex_domain_init].
Defined.

Lemma same_shape_init n a b g : same_shape n (CrystalLattice_init n a b g).
Proof.
  split; [apply init_spec|]. split; [apply wf_init|apply hex_domain_init].
Qed.

Lemma same_shape_step n L : same_shape n L → same_shape n (step_all L).
Proof.
  intros (Es & Hwf & Hd). split; [done|].
  split; [by apply wf_step_all|by apply hex_domain_step_all].
Qed.

Lemma same_shape_steps n k : ∀ L L',
  same_shape n L → steps k L = Ok L' → same_shape n L'.
Proof.
  induction k as [|k IH]; intros L L' Hs E.
  - by injection E as <-.
  - simpl in E. apply bind_Ok in E as (L1 & E1 & E2).
    destruct (diffusion_Ok L L1) as [_ ->]; [apply Hs|done|].
    apply (IH (step_all L)); [by apply same_shape_step|done].
Qed.

(** The call of [diffusion] on a lattice of radius at least 1. *)
Lemma diffusion_cases n L :
  1 ≤ n → same_shape n L →
  diffusion L = if stop_condition L then SystemExit (exit_io L)
                else Ok (step_all L).
Proof.
  intros Hn (Es & Hwf & Hd). rewrite (diffusion_unfold _ Hwf).
  rewrite (all_ends_frozen_eq L).
  - by destruct (stop_condition L).
  - intros c Hc. apply Hd. rewrite Es in Hc. by apply branch_ends_in_hex.
  - intros c Hc. by apply Hwf.
Qed.

(** X9. A run on a constructed lattice of size at least 1 never raises
    KeyError: every call of [diffusion] either completes or ends the
    process through [sys.exit()]. *)
Theorem run_never_raises (n : Z) (a b g : num) (k : nat) :
  1 ≤ n →
  steps k (CrystalLattice_init n a b g) ≠ KeyError.
Proof.
  intros Hn.
  assert (∀ L, same_shape n L → steps k L ≠ KeyError) as H;
    [|apply H, same_shape_init].
  induction k as [|k IH]; intros L Hs; [done|].
  simpl. rewrite (diffusion_cases n L Hn Hs).
  destruct (stop_condition L); [done|]. simpl.
  by apply IH, same_shape_step.
Qed.

Lemma run_never_raises_witness : steps 3 demo2 ≠ KeyError.
Proof. apply (run_never_raises 2). lia. Defined.

(** X10. A run never adds or removes a cell and never changes a
    parameter: after any number of completed steps the size, alpha, beta,
    gamma, the key list and the number of cells are those of the start. *)
Theorem run_keeps_shape (k : nat) (L L' : CrystalLattice) :
  wf_dict (lattice L) → steps k L = Ok L' →
  size_ L' = size_ L ∧ alpha L' = alpha L ∧ beta L' = beta L ∧
  gamma L' = gamma L ∧ keys (lattice L') = keys (lattice L) ∧
  dict_len (lattice L') = dict_len (lattice L) ∧
  ∀ c, (∃ h', cell L' c = Ok h') ↔ (∃ h, cell L c = Ok h).
Proof.
  revert L. induction k as [|k IH]; intros L Hwf E.
  - injection E as <-. repeat split; try done.
  - simpl in E. apply bind_Ok in E as (L1 & E1 & E2).
    destruct (diffusion_Ok L L1 Hwf E1) as [_ ->].
    destruct (IH (step_all L) (wf_step_all L Hwf) E2)
      as (-> & -> & -> & -> & -> & El & Hc).
    repeat split; try done.
    + rewrite El, !dict_len_wf; [done|done|by apply wf_step_all].
    + intros H. apply Hc in H as [h1 Eh1]. apply cell_Ok in Eh1.
      rewrite (at_step_all L c Hwf) in Eh1.
      destruct (at_ L c) as [h|] eqn:Eh; [|done]. exists h. by apply cell_Some.
    + intros [h Eh]. apply Hc. apply cell_Ok in Eh.
      exists (step_cell L c h). apply cell_Some.
      by rewrite (at_step_all L c Hwf), Eh.
Qed.

Lemma run_keeps_shape_witness :
  ∃ L', steps 2 demo2 = Ok L' ∧ keys (lattice L') = keys (lattice demo2) ∧
        dict_len (lattice L') = 19%nat.
Proof.
  exists (step_all (step_all demo2)).
  destruct (run_keeps_shape 2 demo2 (step_all (step_all demo2)))
    as (_ & _ & _ & _ & Ek & El & _);
    [apply wf_init|vm_compute; reflexivity|].
  split; [vm_compute; reflexivity|]. split; [exact Ek|].
  rewrite El. vm_compute. reflexivity.
Defined.

(** ** The first call and the first step *)

Lemma new_cell_spec b c :
  new_cell b c = if decide (c = (0, 0)) then seed else vapour b.
Proof.
  destruct c as [q r]. unfold new_cell. simpl.
  destruct (decide (q = 0)) as [->|Hq], (decide (r = 0)) as [->|Hr].
  - rewrite !bool_decide_eq_false_2 by (intros H; by apply H).
    by rewrite decide_True.
  - rewrite (bool_decide_eq_true_2 (r ≠ 0)) by done.
    rewrite decide_False; [done|]. intros [=]. lia.
  - rewrite (bool_decide_eq_true_2 (q ≠ 0)) by done. rewrite orb_true_r.
    rewrite decide_False; [done|]. intros [=]. lia.
  - rewrite (bool_decide_eq_true_2 (r ≠ 0)) by done.
    rewrite decide_False; [done|]. intros [=]. lia.
Qed.

(** The frozen cells of a freshly constructed lattice. *)
Lemma frozen_at_init n a b g c :
  frozen_at (CrystalLattice_init n a b g) c = true ↔
  in_hex n c ∧ (c = (0, 0) ∨ ge1 b = true).
Proof.
  destruct (init_spec n a b g) as (_ & _ & _ & _ & _ & Eat).
  unfold frozen_at. rewrite Eat, new_cell_spec.
  destruct (decide (in_hex n c)) as [Hc|Hc]; [|split; [done|tauto]].
  destruct (decide (c = (0, 0))) as [->|Hne]; simpl.
  - split; [tauto|done].
  - split; [tauto|]. by intros [_ [?|?]].
Qed.

Lemma frozen_count_pos L cs c :
  c ∈ cs → frozen_at L c = true → frozen_count L cs ≠ 0%nat.
Proof.
  intros Hc Hf E. unfold frozen_count in E.
  apply length_zero_iff_nil in E.
  assert (c ∈ filter (λ c, frozen_at L c = true) cs) as Hin
    by (by apply list_elem_of_filter).
  rewrite E in Hin. by apply elem_of_nil in Hin.
Qed.

Lemma branch_ends_size_one : elements (branch_ends 1) = [(0, 0)].
Proof. vm_compute. reflexivity. Qed.

(** X11. On a freshly constructed lattice of size at least 1 with
    [beta < 1], the first call of [diffusion] completes, and after it the
    receptive cells are exactly the centre and its six neighbours. *)
Theorem first_step (n : Z) (a b g : num) (c : coord) (h' : Hexagon) :
  1 ≤ n → ge1 b = false →
  let L0 := CrystalLattice_init n a b g in
  diffusion L0 = Ok (step_all L0) ∧
  (cell (step_all L0) c = Ok h' →
   (receptive h' = true ↔
    c = (0, 0) ∨
    c ∈ [(0, -1); (1, -1); (1, 0); (0, 1); (-1, 1); (-1, 0)])).
Proof.
  intros Hn Hb L0.
  pose proof (same_shape_init n a b g) as Hs. fold L0 in Hs.
  pose proof (frozen_at_init n a b g) as Hf. fold L0 in Hf.
  destruct (init_spec n a b g) as (Es & _ & _ & _ & _ & Eat).
  fold L0 in Es, Eat.
  assert (in_hex n (0, 0)) as H00 by (unfold in_hex; simpl; lia).
  split.
  - rewrite (diffusion_cases n L0 Hn Hs).
    assert (stop_condition L0 = false) as ->; [|done].
    unfold stop_condition. apply orb_false_iff. split.
    + apply bool_decide_eq_false. rewrite Es.
      destruct (decide (n = 1)) as [->|Hn1].
      * rewrite branch_ends_size_one.
        pose proof (length_filter (λ c, frozen_at L0 c = true) [(0, 0)]) as Hl.
        unfold frozen_count. change (length [(0, 0)]) with 1%nat in Hl. lia.
      * intros E. rewrite <- Es in E.
        assert (size_ L0 ≠ 1) as Hne by (by rewrite Es).
        pose proof (proj1 (branch_tips_all_six L0 Hne) E (0, n - 1)) as E'.
        clear E. rename E' into E. rewrite Es in E.
        destruct (proj1 (Hf (0, n - 1))) as [_ [[=]|?]]; [|lia|congruence].
        apply E. do 2 right. by left.
    + apply bool_decide_eq_false. apply (frozen_count_pos L0 _ (0, 0)).
      * apply Hs. apply Hs. done.
      * apply Hf. split; [done|by left].
  - intros Eh'. apply cell_Ok in Eh'.
    rewrite (at_step_all L0 c) in Eh' by apply Hs. rewrite Eat in Eh'.
    destruct (decide (in_hex n c)) as [Hc|]; [|done].
    simpl in Eh'. injection Eh' as <-.
    pose proof (step_cell_eq L0 c (new_cell b c)) as E. simpl in E.
    rewrite E. clear E. cbn [receptive].
    assert (receptive (new_cell b c) = false) as ->
      by (rewrite new_cell_spec; by case_decide).
    simpl. unfold classified. rewrite orb_true_iff, existsb_exists.
    rewrite new_cell_spec. split.
    + intros [Hown|(x & Hx & Hfx)].
      * case_decide; [by left|]. simpl in Hown. congruence.
      * apply Hf in Hfx as [_ [->|?]]; [|congruence]. right.
        destruct c as [q r]. apply list_elem_of_In in Hx.
        apply elem_of_get_neighbours in Hx as [Hx _].
        repeat (apply elem_of_cons in Hx as [[=]|Hx];
                [rewrite !elem_of_cons;
                 repeat (first [left; f_equal; lia|right]); fail|]).
        by apply elem_of_nil in Hx.
    + intros [->|Hc6]; [by left|right]. exists (0, 0). split.
      * apply list_elem_of_In. destruct c as [q r].
        apply elem_of_get_neighbours. split; [|apply Hs; done].
        repeat (apply elem_of_cons in Hc6 as [[= -> ->]|Hc6];
                [rewrite !elem_of_cons;
                 repeat (first [left; reflexivity|right]); fail|]).
        by apply elem_of_nil in Hc6.
      * apply Hf. split; [done|by left].
Qed.

Lemma first_step_witness :
  diffusion demo2 = Ok (step_all demo2) ∧
  (cell (step_all demo2) (1, -1) = Ok (step_cell demo2 (1, -1) (vapour (Fin (3 # 10)))) →
   (receptive (step_cell demo2 (1, -1) (vapour (Fin (3 # 10)))) = true ↔
    (1, -1) = (0, 0) ∨
    (1, -1) ∈ [(0, -1); (1, -1); (1, 0); (0, 1); (-1, 1); (-1, 0)])).
Proof.
  apply (first_step 2 (Fin 1) (Fin (3 # 10)) (Fin (1 # 1000)) (1, -1)).
  - lia.
  - vm_compute; reflexivity.
Defined.

(** X12. With [beta >= 1] every cell is frozen from the start: on a lattice
    of size at least 2 the very first call of the termination test (and so
    of [diffusion]) prints the number of cells, saves the image and exits,
    and no step is ever made. *)
Theorem saturated_start_exits (n : Z) (a b g : num) :
  2 ≤ n → ge1 b = true →
  let L0 := CrystalLattice_init n a b g in
  let io := [PrintLine (Z.to_nat (3 * n * n + 3 * n + 1)) b g; SaveImage b g] in
  all_ends_frozen L0 = SystemExit io ∧ diffusion L0 = SystemExit io.
Proof.
  intros Hn Hb L0 io. subst L0 io.
  destruct (same_shape_init n a b g) as (_ & Hwf & Hd).
  pose proof (frozen_at_init n a b g) as Hf.
  destruct (init_spec n a b g) as (Es & _ & Eb & Eg & Ek & _).
  assert (all_ends_frozen (CrystalLattice_init n a b g) =
          SystemExit (exit_io (CrystalLattice_init n a b g))) as E.
  { rewrite all_ends_frozen_eq.
    - assert (stop_condition (CrystalLattice_init n a b g) = true) as ->;
        [|done].
      unfold stop_condition. apply orb_true_iff. left.
      apply bool_decide_eq_true. apply branch_tips_all_six; [rewrite Es; lia|].
      intros c Hc. apply Hf. split; [|by right].
      rewrite Es in Hc. apply branch_ends_in_hex; [lia|].
      by apply branch_end_in_set.
    - intros c Hc. apply Hd. rewrite Es in Hc.
      apply branch_ends_in_hex; [lia|done].
    - intros c Hc. by apply Hwf. }
  assert (exit_io (CrystalLattice_init n a b g) =
          [PrintLine (Z.to_nat (3 * n * n + 3 * n + 1)) b g; SaveImage b g])
    as Eio.
  { unfold exit_io. rewrite Eb, Eg. do 2 f_equal.
    rewrite <- (length_hex_cells n) by lia. rewrite <- Ek.
    apply frozen_count_all. intros c Hc. apply Hf. split; [|by right].
    apply Hd. by apply Hwf. }
  rewrite <- Eio. split; [done|].
  rewrite (diffusion_unfold _ (wf_init n a b g)). by rewrite E.
Qed.

Lemma saturated_start_exits_witness :
  diffusion (CrystalLattice_init 2 (Fin 1) (Fin 1) (Fin (1 # 1000)))
  = SystemExit [PrintLine 19 (Fin 1) (Fin (1 # 1000));
                SaveImage (Fin 1) (Fin (1 # 1000))].
Proof.
  apply (saturated_start_exits 2 (Fin 1) (Fin 1) (Fin (1 # 1000))).
  - lia.
  - vm_compute; reflexivity.
Defined.

(** ** Runs with physical parameters *)

(** A step of a physical run: the radius is at least 1, the lattice before
    the step satisfies the invariant and the step is [step_all]. *)
Lemma physical_run_step n a b g k L L' :
  (0 <= a)%Q → (a <= 2)%Q → (0 <= g)%Q → (0 <= b)%Q →
  steps k (CrystalLattice_init n (Fin a) (Fin b) (Fin g)) = Ok L →
  diffusion L = Ok L' →
  1 ≤ n ∧ run_invariant n L ∧ L' = step_all L.
Proof.
  intros Ha1 Ha2 Hg Hb Ek E.
  pose proof (run_invariant_init n a b g Ha1 Ha2 Hb Hg) as Hinit.
  assert (1 ≤ n) as Hn.
  { destruct k as [|k].
    - injection Ek as <-. destruct Hinit as (Es & Hwf & Hd & _).
      by eapply diffusion_size.
    - apply steps_S_inv in Ek as [L1 E1]. destruct Hinit as (Es & Hwf & Hd & _).
      by eapply diffusion_size. }
  pose proof (run_invariant_steps n k _ L Hn Hinit Ek) as Hinv.
  split; [done|]. split; [done|].
  by destruct (diffusion_Ok L L') as [_ ->]; [apply Hinv|..].
Qed.




Lemma frozen_persists n k : ∀ L L' c,
  1 ≤ n → run_invariant n L → frozen_at L c = true →
  steps k L = Ok L' → frozen_at L' c = true.
Proof.
  induction k as [|k IH]; intros L L' c Hn Hinv Hf E.
  - by injection E as <-.
  - simpl in E. apply bind_Ok in E as (L1 & E1 & E2).
    destruct (diffusion_Ok L L1) as [_ ->]; [apply Hinv|done|].
    apply (IH (step_all L) L' c Hn); [by apply run_invariant_step| |done].
    by apply (frozen_stays n).
Qed.

(** In a physical run the centre is frozen at every step. *)
Lemma centre_frozen n a b g k L :
  1 ≤ n → (0 <= a)%Q → (a <= 2)%Q → (0 <= g)%Q → (0 <= b)%Q →
  steps k (CrystalLattice_init n (Fin a) (Fin b) (Fin g)) = Ok L →
  run_invariant n L ∧ frozen_at L (0, 0) = true.
Proof.
  intros Hn Ha1 Ha2 Hg Hb Ek.
  pose proof (run_invariant_init n a b g Ha1 Ha2 Hb Hg) as Hinit.
  split; [by apply (run_invariant_steps n k _ L Hn Hinit Ek)|].
  apply (frozen_persists n k _ L (0, 0) Hn Hinit); [|done].
  apply frozen_at_init. split; [|by left]. unfold in_hex. simpl. lia.
Qed.

(** X14. In a run with physical parameters on a lattice of size at least 2
    the stall test never fires: when [all_ends_frozen] ends the process, all
    six branch ends are frozen. *)
Theorem exit_only_at_branch_tips (n : Z) (a b g : Q) (k : nat)
    (L : CrystalLattice) (io : list effect) :
  2 ≤ n → (0 <= a)%Q → (a <= 2)%Q → (0 <= g)%Q → (0 <= b)%Q →
  steps k (CrystalLattice_init n (Fin a) (Fin b) (Fin g)) = Ok L →
  all_ends_frozen L = SystemExit io →
  (frozen_count L (keys (lattice L)) ≠ 0)%nat ∧
  ∀ c, c ∈ branch_end_list n → ∃ h, cell L c = Ok h ∧ ge1 (state h) = true.
Proof.
  intros Hn Ha1 Ha2 Hg Hb Ek E.
  destruct (centre_frozen n a b g k L) as [Hinv Hc0]; [lia|done..|].
  destruct Hinv as (Es & Hwf & Hd & _).
  assert (frozen_count L (keys (lattice L)) ≠ 0%nat) as Hpos.
  { apply (frozen_count_pos L _ (0, 0)); [|done]. apply Hwf. apply Hd.
    unfold in_hex. simpl. lia. }
  split; [done|].
  rewrite all_ends_frozen_eq in E.
  - unfold stop_condition in E.
    rewrite (bool_decide_eq_false_2 _ Hpos), orb_false_r in E.
    case_bool_decide as H6; [|done].
    assert (size_ L ≠ 1) as Hne by (rewrite Es; lia).
    pose proof (proj1 (branch_tips_all_six L Hne) H6) as H6'.
    intros c Hc. rewrite <- Es in Hc. specialize (H6' c Hc).
    rename H6' into Hfz. clear H6. rename Hfz into H6.
    unfold frozen_at in H6. destruct (at_ L c) as [h|] eqn:Eh; [|done].
    exists h. split; [by apply cell_Some|done].
  - intros c Hc. apply Hd. rewrite Es in Hc.
    apply branch_ends_in_hex; [lia|done].
  - intros c Hc. by apply Hwf.
Qed.

Lemma exit_only_at_branch_tips_witness :
  ∃ h, cell (step_all fast2) (0, 1) = Ok h ∧ ge1 (state h) = true.
Proof.
  apply (exit_only_at_branch_tips 2 1 (9 # 10) (1 # 5) 1 (step_all fast2)
           (exit_io (step_all fast2))).
  - lia.
  - discriminate.
  - discriminate.
  - discriminate.
  - discriminate.
  - vm_compute; reflexivity.
  - vm_compute; reflexivity.
  - do 2 right. by left.
Defined.



Lemma steps_snoc k : ∀ L L',
  steps (S k) L = Ok L' → ∃ Lp, steps k L = Ok Lp ∧ diffusion Lp = Ok L'.
Proof.
  induction k as [|k IH]; intros L L' E.
  - simpl in E. apply bind_Ok in E as (L1 & E1 & E2). injection E2 as ->.
    by exists L.
  - change (steps (S (S k)) L) with (diffusion L ≫= steps (S k)) in E.
    apply bind_Ok in E as (L1 & E1 & E2).
    destruct (IH L1 L' E2) as (Lp & Ep & Ed). exists Lp. split; [|done].
    simpl. rewrite E1. done.
Qed.




(** ** The neighbour average *)

Lemma nsum_bounds lo hi l :
  Forall (λ x, nle (Fin lo) x ∧ nle x (Fin hi)) l →
  ∃ s, nsum l = Fin s ∧
       (inject_Z (Z.of_nat (length l)) * lo <= s)%Q ∧
       (s <= inject_Z (Z.of_nat (length l)) * hi)%Q.
Proof.
  induction 1 as [|x l [Hlo Hhi] _ (s & Es & Hs1 & Hs2)].
  - exists 0%Q. split; [reflexivity|].
    change (inject_Z (Z.of_nat (length (@nil num)))) with 0%Q. split; lra.
  - destruct x as [q|]; [|done]. simpl in Hlo, Hhi.
    unfold nsum in *. simpl foldr. rewrite Es.
    exists (Qred (q + s)). split; [done|].
    rewrite Qred_correct.
    change (length (Fin q :: l)) with (S (length l)).
    rewrite Nat2Z.inj_succ. unfold Z.succ. rewrite inject_Z_plus.
    change (inject_Z 1) with 1%Q. split; lra.
Qed.

(** The mean of a non-empty list lies between any bounds of its elements. *)
Lemma np_mean_bounds lo hi l :
  l ≠ [] → Forall (λ x, nle (Fin lo) x ∧ nle x (Fin hi)) l →
  ∃ m, np_mean l = Fin m ∧ (lo <= m)%Q ∧ (m <= hi)%Q.
Proof.
  intros Hl Hf. destruct (nsum_bounds lo hi l Hf) as (s & Es & Hs1 & Hs2).
  unfold np_mean, of_Z, ndiv. rewrite Es, (length_divisor_nonzero l Hl).
  eexists. split; [done|]. rewrite Qred_correct.
  assert (0 < inject_Z (Z.of_nat (length l)))%Q as Hpos.
  { unfold Qlt. simpl. destruct l; [done|]. simpl. lia. }
  split.
  - apply Qle_shift_div_l; [done|]. lra.
  - apply Qle_shift_div_r; [done|]. lra.
Qed.

Lemma step_rule_physical_witness :
  ∃ r, if_receptive (step_all demo2) (2, 0) = Ok r ∧
       receptive (step_cell (step_all demo2) (2, 0)
                    (step_cell demo2 (2, 0) (vapour (Fin (3 # 10))))) = r.
Proof.
  destruct (step_rule_physical 2 1 (3 # 10) (1 # 1000) 1 (step_all demo2)
              (step_all (step_all demo2)) (2, 0)
              (step_cell demo2 (2, 0) (vapour (Fin (3 # 10))))
              (step_cell (step_all demo2) (2, 0)
                 (step_cell demo2 (2, 0) (vapour (Fin (3 # 10))))))
    as (r & Er & Hr & _);
    [discriminate|discriminate|discriminate|discriminate
    |vm_compute; reflexivity..|].
  exists r. split; [exact Er|exact Hr].
Defined.

(** ** The alternative neighbour routine *)

(** Runs through the branches of [eq_neighbours] at [(r, q)]. *)
Ltac eq_neighbours_branches :=
  unfold eq_neighbours; simpl;
  repeat (case_bool_decide; simpl);
  try (exfalso; lia).

(** X18. [eq_neighbours] returns a pair for every coordinate (it never
    falls through to [None]), and the pair of its last branch, [q == 0], is
    never returned: that branch cannot be reached. *)
Theorem eq_neighbours_total (c : coord) :
  (∃ p, eq_neighbours c = Some p) ∧
  eq_neighbours c ≠ Some ((c.1 - 1, c.2 + 2), (c.1 + 1, c.2 - 2)).
Proof.
  destruct c as [r q].
  eq_neighbours_branches; (split; [eexists; reflexivity|intros [=]; lia]).
Qed.

(** X19. The two coordinates that [eq_neighbours] returns are corner
    cells of the coordinate asked about, two steps away, with one exception:
    for [r < 0], [r] even and [q > 0] the first one is the adjacent cell
    [(r + 1, q - 1)]. *)
Theorem eq_neighbours_corner_cells (c p1 p2 : coord) :
  eq_neighbours c = Some (p1, p2) →
  p2 ∈ corner_cells c ∧
  (p1 ∈ corner_cells c ∨
   (c.1 < 0 ∧ c.1 `mod` 2 = 0 ∧ c.2 > 0 ∧ p1 = (c.1 + 1, c.2 - 1))) ∧
  p1 ≠ p2.
Proof.
  destruct c as [r q]. unfold corner_cells. simpl.
  eq_neighbours_branches; intros [= <- <-];
    (split; [|split; [|intros [=]; lia]]);
    rewrite ?elem_of_cons; tauto.
Qed.

Lemma eq_neighbours_corner_cells_witness :
  (1, 1) ∈ corner_cells (2, -1) ∧
  ((1, -2) ∈ corner_cells (2, -1) ∨
   ((2, -1).1 < 0 ∧ (2, -1).1 `mod` 2 = 0 ∧ (2, -1).2 > 0 ∧
    (1, -2) = ((2, -1).1 + 1, (2, -1).2 - 1))) ∧
  (1, -2) ≠ (1, 1).
Proof.
  apply (eq_neighbours_corner_cells (2, -1) (1, -2) (1, 1)).
  vm_compute. reflexivity.
Defined.



(** ** The crystal grows by at most one ring per step *)

Lemma ge1_below b x : (b < 1)%Q → nle x (Fin b) → ge1 x = false.
Proof.
  intros Hb Hx. destruct x as [q|]; [|done]. simpl in *.
  destruct (Qle_bool 1 q) eqn:E; [|done].
  apply Qle_bool_iff in E. lra.
Qed.

Lemma neighbour_outside L c qr k :
  qr ∈ get_neighbours L c → ¬ in_hex (k + 1) c → ¬ in_hex k qr.
Proof.
  destruct c as [q r]. intros [Hin _]%elem_of_get_neighbours Hc Hqr.
  apply Hc. unfold in_hex in *.
  repeat (apply elem_of_cons in Hin as [->|Hin]; [simpl in *; lia|]).
  by apply elem_of_nil in Hin.
Qed.

Lemma confined_init n a b g :
  (0 <= b)%Q → (b < 1)%Q →
  confined b 0 (CrystalLattice_init n (Fin a) (Fin b) (Fin g)).
Proof.
  intros Hb0 Hb1 c h Eh.
  destruct (init_spec n (Fin a) (Fin b) (Fin g)) as (_ & _ & _ & _ & _ & Eat).
  rewrite Eat in Eh. case_decide; [|done]. injection Eh as <-.
  rewrite new_cell_spec. case_decide as Hc0.
  - subst c. simpl. split; [done|]. split; [done|].
    intros Hout. destruct Hout. unfold in_hex. simpl. lia.
  - simpl. split; [lra|]. split; [intros; lra|]. intros _.
    split; [done|]. change (ge1 (Fin b) = false).
    apply (ge1_below b); [done|]. simpl. lra.
Qed.

Lemma confined_step n b k L :
  1 ≤ n → run_invariant n L → (b < 1)%Q →
  confined b k L → confined b (k + 1) (step_all L).
Proof.
  intros Hn Hinv Hb1 Hconf c h' Eh'.
  rewrite (at_step_all L c) in Eh' by apply Hinv.
  destruct (at_ L c) as [h|] eqn:Eh; [|done]. injection Eh' as <-.
  assert (in_hex n c) as Hc by (apply Hinv; eauto).
  pose proof Hinv as (_ & _ & Hd & (a & g & Ea & Eg & Ha1 & Ha2 & Hg) & Hok).
  destruct (Hok c h Eh) as (_ & Hs0 & Hflag).
  destruct (Hconf c h Eh) as (_ & Hlow & Hout).
  (* the mean of the neighbours *)
  destruct (us_of_neighbours L c) as [Hne Hel].
  destruct (np_mean_bounds 0 b (us_of L (get_neighbours L c)))
    as (m & Em & Hm0 & Hmb).
  { apply Hne. by apply (neighbours_nonempty n). }
  { apply Forall_forall. intros x Hx.
    destruct (Hel x Hx) as (qr & hq & _ & Ehq & ->).
    destruct (Hok qr hq Ehq) as (Hu0 & _). destruct (Hconf qr hq Ehq) as (Hub & _).
    destruct (u hq); [|done]. by split. }
  pose proof (step_cell_eq L c h) as E. simpl in E. rewrite E, Em, Ea, Eg.
  clear E. destruct (state h) as [s|] eqn:Es; [|done]. simpl in Hs0.
  assert (0 <= a * m)%Q as Ham by (by apply Qmult_le_0_compat).
  assert (0 <= (2 - a) * m)%Q as Ham' by (apply Qmult_le_0_compat; lra).
  destruct (classified L c h) eqn:Er.
  - (* receptive: within one ring of a frozen cell *)
    rewrite orb_true_r. cbn [u state receptive]. split; [|split].
    + simpl. rewrite !Qred_correct. unfold Qdiv.
      change (/ inject_Z 2)%Q with (1 # 2)%Q. change (inject_Z 0) with 0%Q. lra.
    + done.
    + intros Hout'. exfalso. unfold classified in Er.
      apply orb_true_iff in Er as [Hown|Hnb].
      * destruct Hout as [_ Hf].
        { intros Hk. apply Hout'. unfold in_hex in *. lia. }
        congruence.
      * apply existsb_exists in Hnb as (qr & Hqr & Hf).
        apply list_elem_of_In in Hqr.
        pose proof (neighbour_outside L c qr k Hqr Hout') as Hqo.
        unfold frozen_at in Hf. destruct (at_ L qr) as [hq|] eqn:Ehq; [|done].
        destruct (Hconf qr hq Ehq) as (_ & _ & Hq). destruct (Hq Hqo). congruence.
  - (* not receptive *)
    assert (receptive h = false) as Hr.
    { destruct (receptive h); [|done]. by specialize (Hflag eq_refl). }
    assert (ge1 (Fin s) = false) as Hs1.
    { unfold classified in Er. apply orb_false_iff in Er as [Er _].
      by rewrite Es in Er. }
    rewrite Hr. cbn [u state receptive orb].
    assert (s <= b)%Q as Hsb by (by apply Hlow).
    assert (0 <= (2 - a) * (b - s))%Q as Hx
      by (apply Qmult_le_0_compat; lra).
    assert (0 <= a * (b - m))%Q as Hy by (apply Qmult_le_0_compat; lra).
    assert (nle (nadd (Fin s) (nmul (ndiv (Fin a) (of_Z 2)) (nsub (Fin m) (Fin s))))
                (Fin b)) as Hub.
    { simpl. rewrite !Qred_correct. unfold Qdiv.
      change (/ inject_Z 2)%Q with (1 # 2)%Q. lra. }
    assert (nle (nadd (nadd (Fin s)
                   (nmul (ndiv (Fin a) (of_Z 2)) (nsub (Fin m) (Fin s))))
                   (of_Z 0)) (Fin b)) as Hsb'.
    { simpl. simpl in Hub. rewrite !Qred_correct in *. unfold Qdiv in *.
      change (/ inject_Z 2)%Q with (1 # 2)%Q in *.
      change (inject_Z 0) with 0%Q. lra. }
    split; [done|]. split; [done|]. intros _. split; [done|].
    by apply (ge1_below b).
Qed.

Lemma confined_run n a b g k : ∀ L,
  (0 <= a)%Q → (a <= 2)%Q → (0 <= g)%Q → (0 <= b)%Q → (b < 1)%Q →
  steps k (CrystalLattice_init n (Fin a) (Fin b) (Fin g)) = Ok L →
  confined b (Z.of_nat k) L.
Proof.
  induction k as [|k IH]; intros L Ha1 Ha2 Hg Hb0 Hb1 Ek.
  - injection Ek as <-. by apply confined_init.
  - apply steps_snoc in Ek as (Lp & Ep & Ed).
    destruct (physical_run_step n a b g k Lp L Ha1 Ha2 Hg Hb0 Ep Ed)
      as (Hn & Hinv & ->).
    rewrite Nat2Z.inj_succ. unfold Z.succ.
    apply (confined_step n); try done. by apply IH.
Qed.

(** X21. With physical parameters and [beta < 1] the crystal grows by at
    most one ring per step: after [k] steps every cell that is frozen or
    flagged receptive lies within [k] rings of the centre
    ([|q|, |r|, |q + r| <= k]). *)
Theorem growth_one_ring_per_step (n : Z) (a b g : Q) (k : nat)
    (L : CrystalLattice) (c : coord) (h : Hexagon) :
  (0 <= a)%Q → (a <= 2)%Q → (0 <= g)%Q → (0 <= b)%Q → (b < 1)%Q →
  steps k (CrystalLattice_init n (Fin a) (Fin b) (Fin g)) = Ok L →
  cell L c = Ok h →
  receptive h = true ∨ ge1 (state h) = true →
  in_hex (Z.of_nat k) c.
Proof.
  intros Ha1 Ha2 Hg Hb0 Hb1 Ek Eh Hrf. apply cell_Ok in Eh.
  pose proof (confined_run n a b g k L Ha1 Ha2 Hg Hb0 Hb1 Ek c h Eh)
    as (_ & _ & Hout).
  destruct (decide (in_hex (Z.of_nat k) c)) as [|Hc]; [done|].
  destruct (Hout Hc) as [Hr Hf]. destruct Hrf; congruence.
Qed.

Lemma growth_one_ring_per_step_witness :
  in_hex (Z.of_nat 1) (1, 0).
Proof.
  apply (growth_one_ring_per_step 2 1 (3 # 10) (1 # 1000) 1 (step_all demo2)
           (1, 0) (step_cell demo2 (1, 0) (vapour (Fin (3 # 10))))).
  - discriminate.
  - discriminate.
  - discriminate.
  - discriminate.
  - reflexivity.
  - vm_compute; reflexivity.
  - vm_compute; reflexivity.
  - left. vm_compute; reflexivity.
Defined.

(** X22. With physical parameters and [beta < 1] the run cannot stop
    early: on a lattice of size [n] the first [n - 1] calls of [diffusion]
    all complete. *)
Theorem no_stop_before_the_tips (n : Z) (a b g : Q) (k : nat) :
  (0 <= a)%Q → (a <= 2)%Q → (0 <= g)%Q → (0 <= b)%Q → (b < 1)%Q →
  Z.of_nat k ≤ n - 1 →
  ∃ L, steps k (CrystalLattice_init n (Fin a) (Fin b) (Fin g)) = Ok L.
Proof.
  intros Ha1 Ha2 Hg Hb0 Hb1. induction k as [|k IH]; intros Hk; [by eexists|].
  destruct IH as [L Ek]; [lia|].
  assert (2 ≤ n) as Hn by lia.
  destruct (centre_frozen n a b g k L) as [Hinv Hc0]; [lia|done..|].
  pose proof (confined_run n a b g k L Ha1 Ha2 Hg Hb0 Hb1 Ek) as Hconf.
  pose proof Hinv as (Es & Hwf & Hd & _).
  exists (step_all L).
  replace (S k) with (k + 1)%nat by lia.
  apply (steps_app k 1 _ L); [done|]. simpl.
  rewrite (diffusion_cases n L); [|lia|done].
  assert (stop_condition L = false) as ->; [|done].
  unfold stop_condition. apply orb_false_iff. split.
  - apply bool_decide_eq_false. intros H6.
    assert (size_ L ≠ 1) as Hne by (rewrite Es; lia).
    pose proof (proj1 (branch_tips_all_six L Hne) H6 (0, n - 1)) as Hf.
    rewrite Es in Hf. unfold frozen_at in Hf.
    destruct (at_ L (0, n - 1)) as [h|] eqn:Eh.
    + destruct (Hconf (0, n - 1) h Eh) as (_ & _ & Hout).
      destruct Hout as [_ Hnf].
      * unfold in_hex. simpl. lia.
      * rewrite Hf in Hnf; [done|]. do 2 right. by left.
    + discriminate Hf. do 2 right. by left.
  - apply bool_decide_eq_false. apply (frozen_count_pos L _ (0, 0)); [|done].
    apply Hwf. apply Hd. unfold in_hex. simpl. lia.
Qed.

Lemma no_stop_before_the_tips_witness :
  ∃ L, steps 4 (CrystalLattice_init 5 (Fin 1) (Fin (3 # 10)) (Fin (1 # 1000)))
       = Ok L.
Proof.
  apply (no_stop_before_the_tips 5 1 (3 # 10) (1 # 1000) 4);
    [discriminate|discriminate|discriminate|discriminate|reflexivity|].
  simpl. lia.
Defined.

(** ** The order of the keys *)

Lemma seqZ_sorted (k : nat) : ∀ m,
  StronglySorted Z.lt (seqZ m (Z.of_nat k)).
Proof.
  induction k as [|k IH]; intros m; [constructor|].
  rewrite seqZ_cons by lia. constructor.
  - replace (Z.pred (Z.of_nat (S k))) with (Z.of_nat k) by lia. apply IH.
  - apply Forall_seqZ. intros m' Hm'. lia.
Qed.

Lemma range_sorted a b : StronglySorted Z.lt (range a b).
Proof.
  unfold range. destruct (decide (0 ≤ b - a)) as [H|H].
  - rewrite <- (Z2Nat.id (b - a)) by done. apply seqZ_sorted.
  - rewrite seqZ_nil by lia. constructor.
Qed.

Lemma filter_sorted {A} (R : relation A) (P : A → Prop)
    `{∀ x, Decision (P x)} l :
  StronglySorted R l → StronglySorted R (filter P l).
Proof.
  induction 1 as [|x l Hl IH Hx]; [constructor|].
  rewrite filter_cons. case_decide; [|done]. constructor; [done|].
  apply Forall_forall. intros y [_ Hy]%list_elem_of_filter.
  by apply (proj1 (Forall_forall _ _) Hx).
Qed.

Lemma hex_row_sorted n q : StronglySorted row_order (hex_row n q).
Proof.
  rewrite hex_row_filter.
  apply (StronglySorted_fmap _ Z.lt); [|apply filter_sorted, range_sorted].
  intros r1 r2 Hr. right. simpl. by split.
Qed.

Lemma hex_rows_sorted n qs :
  StronglySorted Z.lt qs → StronglySorted row_order (qs ≫= hex_row n).
Proof.
  induction 1 as [|q qs Hqs IH Hq]; [constructor|].
  rewrite bind_cons. apply StronglySorted_app_2; [|apply hex_row_sorted|done].
  intros c1 c2 Hc1 Hc2. apply elem_of_hex_row in Hc1 as [E1 _].
  apply list_elem_of_bind in Hc2 as (q' & Hc2 & Hq').
  apply elem_of_hex_row in Hc2 as [E2 _].
  left. rewrite E1, E2. by apply (proj1 (Forall_forall _ _) Hq).
Qed.

(** X23. The constructor inserts the cells row by row, so [keys()] (and
    with it every loop of the step) runs through the lattice by increasing
    second component of the key and, inside a row, by increasing first
    component. *)
Theorem keys_row_by_row (n : Z) (a b g : num) :
  StronglySorted row_order (keys (lattice (CrystalLattice_init n a b g))).
Proof.
  destruct (init_spec n a b g) as (_ & _ & _ & _ & -> & _).
  unfold hex_cells. apply hex_rows_sorted, range_sorted.
Qed.

(** ** No diffusion *)



